(** * Hervor API test suite: a shallow embedding of [hervor.py]

    The program reads a JSON test bundle, turns it into [Test] /
    [TestGroup] / [TestCase] values, and sends one HTTP request per case,
    printing a verdict for each.  The embedding follows the source function
    by function.  Python values are dynamically typed, so the fields of the
    dataclasses hold [pyval]s: the annotations of the source ([str], [int],
    [Optional[str]]) are not enforced by the parser.  A [str] is a
    [string]: the program only joins strings and compares them.  Reading
    the file and decoding it ([open], [json.load]) and parsing the command
    line are left to the environment: the model starts from the decoded
    document and the value of the base URI flag. *)

From Stdlib Require Import ZArith List String Ascii Bool Lia SpecFloat.
Import ListNotations.
Local Open Scope string_scope.
Local Open Scope Z_scope.

(** ** Python values

    The values [json.load] can build: [None], booleans, integers, floats
    (IEEE binary64, with the [NaN] and infinities that Python's decoder
    accepts), strings, lists and dictionaries.  A dictionary keeps its keys
    in insertion order, which for a decoded document is the order in which
    the keys appear in it; it is an association list whose keys are
    pairwise distinct (see [dict_wf]). *)

#[warnings="-register-all"]
Inductive pyval : Type :=
| PNone
| PBool (b : bool)
| PInt (n : Z)
| PFloat (f : spec_float)
| PStr (s : string)
| PList (items : list pyval)
| PDict (entries : list (string * pyval)).

Definition pydict : Type := list (string * pyval).

Definition dict_wf (d : pydict) : Prop := NoDup (map fst d).

(** Exceptions that can leave the functions of the program.  [NoBaseUri]
    is whatever leaves the statement [raise ArgumentError(...)] of
    [conduct_tests]: the constructor of [argparse.ArgumentError] takes an
    argument and a message and is given the message alone, so the exception
    that propagates is the one of that call; it is kept apart from the
    others because it arises at one place only. *)
Inductive pyexn : Type :=
| KeyError (key : string)          (* [d[k]] and [del d[k]] on an absent key *)
| TypeError                        (* wrong operand type for [+], [[]], [for] *)
| AttributeError                   (* [.get] on something that is no dict *)
| OverflowError                    (* an int too large to become a float *)
| NoBaseUri                        (* leaves the [raise] statement of [conduct_tests] *)
| RequestRaised (info : string).   (* anything raised inside [requests.request] *)

Inductive outcome (A : Type) : Type :=
| Ok (a : A)
| Raise (e : pyexn).
Arguments Ok {A} a.
Arguments Raise {A} e.

Definition obind {A B} (m : outcome A) (f : A -> outcome B) : outcome B :=
  match m with
  | Ok a => f a
  | Raise e => Raise e
  end.

Declare Scope outcome_scope.
Delimit Scope outcome_scope with outcome.
Notation "'let?' x ':=' m 'in' k" := (obind m (fun x => k))
  (at level 10, x name, m at level 100, k at level 200) : outcome_scope.
Local Open Scope outcome_scope.

(** ** Dictionary primitives *)

Fixpoint dict_get (k : string) (d : pydict) : option pyval :=
  match d with
  | [] => None
  | (k', v) :: rest => if String.eqb k k' then Some v else dict_get k rest
  end.

(** [k in d] *)
Definition dict_mem (k : string) (d : pydict) : bool :=
  match dict_get k d with
  | Some _ => true
  | None => false
  end.

(** [d.keys()], the order a [for k in d] loop follows *)
Definition dict_keys (d : pydict) : list string := map fst d.

(** The entries that stay after [del d[k]]; the others keep their order. *)
Definition dict_remove (k : string) (d : pydict) : pydict :=
  filter (fun kv => negb (String.eqb k (fst kv))) d.

(** [del d[k]]: raises [KeyError] when the key is absent. *)
Definition dict_del (k : string) (d : pydict) : outcome pydict :=
  if dict_mem k d then Ok (dict_remove k d) else Raise (KeyError k).

(** [d[k]] on a dictionary *)
Definition dict_getitem (k : string) (d : pydict) : outcome pyval :=
  match dict_get k d with
  | Some v => Ok v
  | None => Raise (KeyError k)
  end.

(** ** Operators of the language used by the program *)

(** [v[k]] with a string key: only dictionaries accept it. *)
Definition py_getitem (v : pyval) (k : string) : outcome pyval :=
  match v with
  | PDict d => dict_getitem k d
  | _ => Raise TypeError
  end.

(** [v.get(k)]: only dictionaries have the method; the default is [None]. *)
Definition py_get (v : pyval) (k : string) : outcome pyval :=
  match v with
  | PDict d => Ok (match dict_get k d with Some x => x | None => PNone end)
  | _ => Raise AttributeError
  end.

Fixpoint chars (s : string) : list pyval :=
  match s with
  | EmptyString => []
  | String c rest => PStr (String c EmptyString) :: chars rest
  end.

(** What a [for x in v] loop visits. *)
Definition py_iter (v : pyval) : outcome (list pyval) :=
  match v with
  | PList items => Ok items
  | PDict d => Ok (map PStr (dict_keys d))
  | PStr s => Ok (chars s)
  | _ => Raise TypeError
  end.

(** [v is None] *)
Definition is_none (v : pyval) : bool :=
  match v with
  | PNone => true
  | _ => false
  end.

(** Binary64 parameters. *)
Definition prec : Z := 53.
Definition emax : Z := 1024.

(** [float(n)]: correctly rounded, [OverflowError] beyond the largest float. *)
Definition float_of_int (n : Z) : outcome spec_float :=
  match binary_normalize prec emax n 0 false with
  | S754_infinity _ => Raise OverflowError
  | f => Ok f
  end.

(** [n == f] for an int and a float compares the exact values. *)
Definition float_eq_int (f : spec_float) (n : Z) : bool :=
  match f with
  | S754_zero _ => n =? 0
  | S754_finite s m e =>
      let v := cond_Zopp s (Zpos m) in
      match e with
      | Zneg p => v =? n * 2 ^ (Zpos p)
      | _ => v * 2 ^ e =? n
      end
  | _ => false
  end.

(** The integer a value stands for in arithmetic ([bool] is a subtype of
    [int]), if any. *)
Definition as_int (v : pyval) : option Z :=
  match v with
  | PInt n => Some n
  | PBool b => Some (if b then 1 else 0)
  | _ => None
  end.

(** [n == v] where [n] is an [int]. *)
Definition int_eq (n : Z) (v : pyval) : bool :=
  match v with
  | PInt m => n =? m
  | PBool b => n =? (if b then 1 else 0)
  | PFloat f => float_eq_int f n
  | _ => false
  end.

(** [s == v] where [s] is a [str]: equal text, and nothing else. *)
Definition str_eq (s : string) (v : pyval) : bool :=
  match v with
  | PStr t => String.eqb s t
  | _ => false
  end.

(** [a + b] *)
Definition py_add (a b : pyval) : outcome pyval :=
  match a, b with
  | PStr x, PStr y => Ok (PStr (x ++ y))
  | PList x, PList y => Ok (PList (x ++ y)%list)
  | PFloat x, PFloat y => Ok (PFloat (SFadd prec emax x y))
  | PFloat x, (PInt _ | PBool _) =>
      match as_int b with
      | Some n => let? y := float_of_int n in Ok (PFloat (SFadd prec emax x y))
      | None => Raise TypeError
      end
  | (PInt _ | PBool _), PFloat y =>
      match as_int a with
      | Some n => let? x := float_of_int n in Ok (PFloat (SFadd prec emax x y))
      | None => Raise TypeError
      end
  | (PInt _ | PBool _), (PInt _ | PBool _) =>
      match as_int a, as_int b with
      | Some n, Some m => Ok (PInt (n + m))
      | _, _ => Raise TypeError
      end
  | _, _ => Raise TypeError
  end.

(** ** The data model (the three dataclasses) *)

Module TestCase.
Record t : Type := mk {
  name : pyval;      (* Name of the test to be conducted. *)
  endpoint : pyval;  (* Endpoint URI. *)
  method : pyval;    (* Method to send the API call. *)
  status : pyval;    (* Status code expected from request. *)
  output : pyval     (* Expected output from the request, or None. *)
}.
End TestCase.

Module TestGroup.
Record t : Type := mk {
  name : string;                 (* Name of the group: a key of the document. *)
  test_cases : list TestCase.t   (* A list of test cases. *)
}.
End TestGroup.

Module Test.
Record t : Type := mk {
  name : pyval;                    (* Program name. *)
  variables : pydict;              (* Variables to be used. *)
  default_uri : pyval;             (* The URI to be used if not overridden. *)
  test_groups : list TestGroup.t   (* The list of test groups. *)
}.
End Test.

(** ** The parser *)

(** [parse_test_case]: the four subscripts are evaluated left to right, so
    the first absent key is the one reported; [.get('Output')] never fails
    on a dictionary. *)
Definition parse_test_case (test_case_data : pyval) : outcome TestCase.t :=
  let? name := py_getitem test_case_data "Name" in
  let? endpoint := py_getitem test_case_data "Endpoint" in
  let? method := py_getitem test_case_data "Method" in
  let? status := py_getitem test_case_data "Status" in
  let? output := py_get test_case_data "Output" in
  Ok (TestCase.mk name endpoint method status output).

(** The loop of [parse_test_cases] over the elements already obtained from
    the iterator: the first failing element aborts it. *)
Fixpoint parse_each (elements : list pyval) : outcome (list TestCase.t) :=
  match elements with
  | [] => Ok []
  | test_case_data :: rest =>
      let? test_case := parse_test_case test_case_data in
      let? test_cases := parse_each rest in
      Ok (test_case :: test_cases)
  end.

Definition parse_test_cases (test_group_data : pyval) : outcome (list TestCase.t) :=
  let? elements := py_iter test_group_data in
  parse_each elements.

(** The loop of [parse_test_groups] over the keys of [program_data], which
    it reads but no longer changes. *)
Fixpoint parse_named (program_data : pydict) (names : list string)
  : outcome (list TestGroup.t) :=
  match names with
  | [] => Ok []
  | test_name :: rest =>
      let? test_group_data := dict_getitem test_name program_data in
      let? test_cases := parse_test_cases test_group_data in
      let? test_groups := parse_named program_data rest in
      Ok (TestGroup.mk test_name test_cases :: test_groups)
  end.

(** [parse_test_groups] works on the caller's dictionary and deletes keys
    from it.  The dictionary object is the state: the function takes its
    contents at the call and returns, next to its result, its contents when
    the call ends (by return or by exception). *)
Definition parse_test_groups (program_data : pydict)
  : outcome (list TestGroup.t) * pydict :=
  let program_data :=
    if dict_mem "Default URI" program_data
    then dict_remove "Default URI" program_data
    else program_data in
  match dict_del "Name" program_data with
  | Raise e => (Raise e, program_data)
  | Ok program_data =>
      (parse_named program_data (dict_keys program_data), program_data)
  end.

(** [parse_tests], from the value that [load(file)] returned.  The arguments
    of [Test(...)] are evaluated left to right: ['Name'] is looked up before
    [parse_test_groups] runs. *)
Definition parse_tests (program_data : pyval) : outcome Test.t :=
  let? default_uri := py_get program_data "Default URI" in
  let? name := py_getitem program_data "Name" in
  match program_data with
  | PDict d =>
      let? test_groups := fst (parse_test_groups d) in
      Ok (Test.mk name [] default_uri test_groups)
  | _ => Raise AttributeError
  end.

(** ** Notions used to state facts about the parser *)

Definition reserved (k : string) : bool :=
  String.eqb "Name" k || String.eqb "Default URI" k.

(** The entries of a document that stand for groups, in document order. *)
Definition group_entries (d : pydict) : pydict :=
  filter (fun kv => negb (reserved (fst kv))) d.

Definition required_fields : list string :=
  ["Name"; "Endpoint"; "Method"; "Status"].



(** What a group built from the key [k] of [d] looks like. *)
Definition group_of_key (d : pydict) (g : TestGroup.t) (k : string) : Prop :=
  TestGroup.name g = k
  /\ exists data elements,
       dict_get k d = Some data
       /\ py_iter data = Ok elements
       /\ Forall2 (fun e c => parse_test_case e = Ok c)
            elements (TestGroup.test_cases g).

(** What a group built from the entry [kv] of the document looks like: it
    bears the key as its name, and its cases are the elements of the value,
    parsed one by one, in the order of the array. *)
Definition group_of_entry (g : TestGroup.t) (kv : string * pyval) : Prop :=
  TestGroup.name g = fst kv
  /\ exists elements,
       py_iter (snd kv) = Ok elements
       /\ Forall2 (fun e c => parse_test_case e = Ok c)
            elements (TestGroup.test_cases g).






(** ** The executor

    [requests.request] and the terminal are the environment.  The remote
    side is a state [World] that each request may change; [request] gives,
    for a method and a URL, either the response or the exception that left
    the library.  What the program does to its environment is recorded as a
    list of [event]s, in the order of the calls. *)

Record Response : Type := mkResponse {
  status_code : Z;
  text : string
}.

Inductive color : Type := blue | grey | green | red.

Inductive event : Type :=
| Cprint (line : string) (c : color) (end_ : string)
| Request (method url : pyval).

Definition TAB : string := String "009"%char EmptyString.
Definition CR : string := String "013"%char EmptyString.
Definition LF : string := String "010"%char EmptyString.


(** ** A small environment to run the model on

    The bundle of the end-to-end scenario, and a server that knows two
    paths and counts the requests it has seen. *)

Definition case_c1 : pydict :=
  [("Name", PStr "c1"); ("Endpoint", PStr "/a"); ("Method", PStr "GET");
   ("Status", PInt 200)].

Definition case_c2 : pydict :=
  [("Name", PStr "c2"); ("Endpoint", PStr "/b"); ("Method", PStr "GET");
   ("Status", PInt 200); ("Output", PStr "ok")].

Definition demo_doc : pydict :=
  [("Name", PStr "S"); ("Default URI", PStr "http://x");
   ("Group", PList [PDict case_c1; PDict case_c2]); ("Empty", PList [])].

Definition demo_c1 : TestCase.t :=
  TestCase.mk (PStr "c1") (PStr "/a") (PStr "GET") (PInt 200) PNone.

Definition demo_c2 : TestCase.t :=
  TestCase.mk (PStr "c2") (PStr "/b") (PStr "GET") (PInt 200) (PStr "ok").

Definition demo_test : Test.t :=
  Test.mk (PStr "S") [] (PStr "http://x")
    [TestGroup.mk "Group" [demo_c1; demo_c2]; TestGroup.mk "Empty" []].

Definition demo_request (w : nat) (method url : pyval)
  : (string + Response) * nat :=
  match url with
  | PStr u =>
      if String.eqb u "http://x/a" then (inr (mkResponse 200 "ok"), S w)
      else if String.eqb u "http://x/b" then (inr (mkResponse 200 "ok "), S w)
      else (inl "ConnectionError", S w)
  | _ => (inl "MissingSchema", w)
  end.

Definition demo_str (v : pyval) : string := "<value>".

(** The same cases in two groups; a bundle whose second case goes to a
    path the server does not know; a document whose second group is no
    array. *)
Definition demo_regrouped : Test.t :=
  Test.mk (PStr "S") [] (PStr "http://x")
    [TestGroup.mk "A" [demo_c1]; TestGroup.mk "B" [demo_c2]].

Definition demo_c3 : TestCase.t :=
  TestCase.mk (PStr "c3") (PStr "/down") (PStr "GET") (PInt 200) PNone.

Definition demo_failing : Test.t :=
  Test.mk (PStr "S") [] (PStr "http://x")
    [TestGroup.mk "Group" [demo_c1; demo_c3; demo_c2]].

Definition faulty_doc : pydict :=
  [("Name", PStr "S"); ("Good", PList [PDict case_c1]); ("Bad", PInt 5);
   ("Later", PList [PInt 7])].

(** A document whose second case object has no ["Endpoint"]; a document
    without ["Name"] whose group is no array; a document in which a number
    stands before a case object without fields. *)
Definition incomplete_doc : pydict :=
  [("Name", PStr "S");
   ("Group", PList [PDict case_c1; PDict [("Name", PStr "c")]])].



Section Executor.

Variable World : Type.
Variable request : World -> pyval -> pyval -> (string + Response) * World.
(** [str(v)] for a value that is no string, as an f-string inserts it. *)
Variable str_other : pyval -> string.

(** A computation that talks to the environment: from the world before,
    its result, the world after and the events it caused. *)
Definition Exec (A : Type) : Type := World -> outcome A * World * list event.

Definition ret {A} (a : A) : Exec A := fun w => (Ok a, w, []).

Definition raise {A} (e : pyexn) : Exec A := fun w => (Raise e, w, []).

Definition bind {A B} (m : Exec A) (f : A -> Exec B) : Exec B :=
  fun w =>
    match m w with
    | (Ok a, w1, t1) =>
        match f a w1 with
        | (r, w2, t2) => (r, w2, (t1 ++ t2)%list)
        end
    | (Raise e, w1, t1) => (Raise e, w1, t1)
    end.

Definition lift {A} (m : outcome A) : Exec A :=
  match m with
  | Ok a => ret a
  | Raise e => raise e
  end.

Notation "x <- m ;; k" := (bind m (fun x => k))
  (at level 100, m at next level, right associativity).
Notation "m ;;; k" := (bind m (fun _ => k))
  (at level 100, right associativity).

(** [for x in xs: body x] *)
Fixpoint for_each {A} (xs : list A) (body : A -> Exec unit) : Exec unit :=
  match xs with
  | [] => ret tt
  | x :: rest => body x ;;; for_each rest body
  end.

(** [cprint(line, color, end=end_)]; [end_] is a newline by default. *)
Definition cprint (line : string) (c : color) (end_ : string) : Exec unit :=
  fun w => (Ok tt, w, [Cprint line c end_]).

(** [request(method, url)] *)
Definition do_request (method url : pyval) : Exec Response :=
  fun w =>
    match request w method url with
    | (inr resp, w') => (Ok resp, w', [Request method url])
    | (inl info, w') => (Raise (RequestRaised info), w', [Request method url])
    end.

(** The text an f-string puts in place of [{v}]. *)
Definition fmt (v : pyval) : string :=
  match v with
  | PStr s => s
  | _ => str_other v
  end.

(** [TestCase.conduct] *)
Definition conduct (self : TestCase.t) (base_uri : pyval) : Exec bool :=
  url <- lift (py_add base_uri (TestCase.endpoint self)) ;;
  req <- do_request (TestCase.method self) url ;;
  let result := int_eq (status_code req) (TestCase.status self) in
  let result :=
    if negb (is_none (TestCase.output self))
    then result && str_eq (text req) (TestCase.output self)
    else result in
  ret result.

(** Lines 140 to 144 of [conduct_tests]: the base URI the loop uses. *)
Definition resolve_base_uri (test : Test.t) (base_uri : pyval) : outcome pyval :=
  if is_none base_uri then
    if is_none (Test.default_uri test) then Raise NoBaseUri
    else Ok (Test.default_uri test)
  else Ok base_uri.

(** The body of the inner loop of [conduct_tests]. *)
Definition run_case (base_uri : pyval) (test_case : TestCase.t) : Exec unit :=
  cprint (TAB ++ fmt (TestCase.name test_case) ++ " Testing") grey "" ;;;
  test_result <- conduct test_case base_uri ;;
  if test_result : bool
  then cprint (CR ++ TAB ++ fmt (TestCase.name test_case) ++ " Passed!") green LF
  else cprint (CR ++ TAB ++ fmt (TestCase.name test_case) ++ " Failed!") red LF.

(** The body of the outer loop of [conduct_tests]. *)
Definition run_group (base_uri : pyval) (test_group : TestGroup.t) : Exec unit :=
  cprint (TestGroup.name test_group) blue LF ;;;
  for_each (TestGroup.test_cases test_group) (run_case base_uri).

(** [conduct_tests] *)
Definition conduct_tests (test : Test.t) (base_uri : pyval) : Exec unit :=
  base_uri <- lift (resolve_base_uri test base_uri) ;;
  for_each (Test.test_groups test) (run_group base_uri).

(** The script: the bundle is parsed completely, then run with the URI
    given on the command line (a string: the flag is required). *)
Definition main (program_data : pyval) (base_uri : string) : Exec unit :=
  test <- lift (parse_tests program_data) ;;
  conduct_tests test (PStr base_uri).

(** ** Reading a trace

    The three kinds of events of a run: requests, the lines that announce a
    group (blue) or a case about to be conducted (grey), and the verdicts
    (green or red). *)

Definition is_request (ev : event) : bool :=
  match ev with
  | Request _ _ => true
  | Cprint _ _ _ => false
  end.

Definition is_announcement (ev : event) : bool :=
  match ev with
  | Cprint _ (blue | grey) _ => true
  | _ => false
  end.

Definition is_verdict (ev : event) : bool :=
  match ev with
  | Cprint _ (green | red) _ => true
  | _ => false
  end.

Definition header_line (g : TestGroup.t) : event :=
  Cprint (TestGroup.name g) blue LF.

Definition testing_line (c : TestCase.t) : event :=
  Cprint (TAB ++ fmt (TestCase.name c) ++ " Testing") grey "".

Definition passed_line (c : TestCase.t) : event :=
  Cprint (CR ++ TAB ++ fmt (TestCase.name c) ++ " Passed!") green LF.

Definition failed_line (c : TestCase.t) : event :=
  Cprint (CR ++ TAB ++ fmt (TestCase.name c) ++ " Failed!") red LF.

(** The announcements of a complete run over [groups]. *)
Definition announced (groups : list TestGroup.t) : list event :=
  flat_map (fun g => header_line g :: map testing_line (TestGroup.test_cases g))
    groups.

(** All cases of a bundle, group after group. *)
Definition all_cases (groups : list TestGroup.t) : list TestCase.t :=
  flat_map TestGroup.test_cases groups.

(** The assertion of a case, read off the data model: the status code must
    be the expected one and, when an output is expected, the body must be
    that text. *)
Definition expected_verdict (c : TestCase.t) (r : Response) : bool :=
  int_eq (status_code r) (TestCase.status c)
  && (is_none (TestCase.output c) || str_eq (text r) (TestCase.output c)).

(** The line that reports a case with its result. *)
Definition result_line (cb : TestCase.t * bool) : event :=
  if snd cb then passed_line (fst cb) else failed_line (fst cb).

Definition verdict_line (cr : TestCase.t * Response) : event :=
  result_line (fst cr, expected_verdict (fst cr) (snd cr)).

(** The request a well-typed case stands for under the base URI [b]. *)
Definition planned (b : string) (c : TestCase.t) (req : pyval * pyval) : Prop :=
  exists e, TestCase.endpoint c = PStr e
            /\ req = (TestCase.method c, PStr (b ++ e)).

(** The server answers every request of [reqs], one after the other. *)
Fixpoint serve (w : World) (reqs : list (pyval * pyval))
  : option (list Response * World) :=
  match reqs with
  | [] => Some ([], w)
  | (m, u) :: rest =>
      match request w m u with
      | (inr r, w1) =>
          match serve w1 rest with
          | Some (rs, w2) => Some (r :: rs, w2)
          | None => None
          end
      | (inl _, _) => None
      end
  end.

(** The exceptions that can leave the loops. *)
Definition loop_exn (e : pyexn) : Prop :=
  e = TypeError \/ e = OverflowError \/ exists info, e = RequestRaised info.

Definition request_event (req : pyval * pyval) : event :=
  Request (fst req) (snd req).

(** The rule in the words of the specification: an override counts as
    provided when it is there and is not the empty string. *)
Definition provided (override : pyval) : bool :=
  match override with
  | PNone => false
  | PStr s => negb (String.eqb s "")
  | _ => true
  end.

Definition effective_uri_as_stated (test : Test.t) (override : pyval) : pyval :=
  if provided override then override else Test.default_uri test.

(** ** Further notions, for the facts beyond the base URI, order and
    failure of a run *)

(** The first required field that [c] lacks, in the order in which
    [parse_test_case] looks the fields up. *)
Definition first_missing (c : pydict) : option string :=
  find (fun f => negb (dict_mem f c)) required_fields.

(** The keys of a case object that [parse_test_case] reads. *)
Definition case_keys : list string := (required_fields ++ ["Output"])%list.

(** The exceptions that can leave the parser. *)
Definition parser_exn (e : pyexn) : Prop :=
  e = AttributeError \/ e = TypeError
  \/ exists k, In k required_fields /\ e = KeyError k.

Definition is_str (v : pyval) : bool :=
  match v with
  | PStr _ => true
  | _ => false
  end.

(** Values that no [int] is equal to, and values other than [None] that no
    [str] is equal to. *)
Definition no_number (v : pyval) : bool :=
  match v with
  | PInt _ | PBool _ | PFloat _ => false
  | _ => true
  end.

Definition no_text (v : pyval) : bool :=
  match v with
  | PNone | PStr _ => false
  | _ => true
  end.

Definition is_header (ev : event) : bool :=
  match ev with
  | Cprint _ blue _ => true
  | _ => false
  end.

(** How many events of a trace are of a kind. *)
Definition count (kind : event -> bool) (tr : list event) : nat :=
  List.length (filter kind tr).

Definition is_testing (ev : event) : bool :=
  match ev with
  | Cprint _ grey _ => true
  | _ => false
  end.

(** The first events of [l], up to and including its [n]-th [Testing]
    line: what is announced when a run stops at its [n]-th case. *)
Fixpoint announced_upto (n : nat) (l : list event) {struct l} : list event :=
  match l with
  | [] => []
  | ev :: rest =>
      match n with
      | O => []
      | S m =>
          ev :: (if is_testing ev then announced_upto m rest
                 else announced_upto (S m) rest)
      end
  end.

Definition no_header (ev : event) : bool := negb (is_header ev).

(** How the requests sent ([nr]) and the verdicts printed ([nv]) of a run
    over [total] cases relate, by the way the run ended. *)
Definition tally (r : outcome unit) (nr nv total : nat) : Prop :=
  match r with
  | Ok _ => nr = total /\ nv = total
  | Raise (RequestRaised _) => nr = S nv /\ (nr <= total)%nat
  | Raise NoBaseUri => nr = 0%nat /\ nv = 0%nat
  | Raise _ => nr = nv /\ (nv < total)%nat
  end.

(** ** [TestCase.conduct] *)

Lemma conduct_unfold (self : TestCase.t) (base_uri url : pyval) (w : World) :
  py_add base_uri (TestCase.endpoint self) = Ok url ->
  conduct self base_uri w =
    match request w (TestCase.method self) url with
    | (inr resp, w') =>
        (Ok (expected_verdict self resp), w', [Request (TestCase.method self) url])
    | (inl info, w') =>
        (Raise (RequestRaised info), w', [Request (TestCase.method self) url])
    end.
Proof.
  intros Hurl. unfold conduct, bind, lift, do_request, ret.
  rewrite Hurl. cbn.
  destruct (request w (TestCase.method self) url) as [[info | resp] w']; cbn.
  - reflexivity.
  - unfold expected_verdict.
    destruct (is_none (TestCase.output self)); cbn;
      [rewrite andb_true_r | ]; reflexivity.
Qed.

Lemma conduct_type_error (self : TestCase.t) (base_uri : pyval) (e : pyexn)
    (w : World) :
  py_add base_uri (TestCase.endpoint self) = Raise e ->
  conduct self base_uri w = (Raise e, w, []).
Proof.
  intros Hurl. unfold conduct, bind, lift. rewrite Hurl. reflexivity.
Qed.

Lemma str_eq_spec (s : string) (v : pyval) : str_eq s v = true <-> PStr s = v.
Proof.
  destruct v; cbn; split; try discriminate.
  - intros H. apply String.eqb_eq in H. now subst.
  - intros H. injection H as ->. apply String.eqb_refl.
Qed.

(** C1. When a case expects an output (its [output] is not [None]) and the
    request is answered, [conduct] returns [True] exactly when the status
    code of the response is the expected status and the body of the
    response is, character for character, the expected output; otherwise
    it returns [False]. *)
Theorem conduct_with_output
    (self : TestCase.t) (base_uri url : pyval) (w w' : World)
    (resp : Response) (expected : Z) :
  TestCase.status self = PInt expected ->
  TestCase.output self <> PNone ->
  py_add base_uri (TestCase.endpoint self) = Ok url ->
  request w (TestCase.method self) url = (inr resp, w') ->
  exists result : bool,
    conduct self base_uri w
      = (Ok result, w', [Request (TestCase.method self) url])
    /\ (result = true <->
          status_code resp = expected /\ PStr (text resp) = TestCase.output self)
    /\ (result = false <->
          status_code resp <> expected \/ PStr (text resp) <> TestCase.output self).
Proof.
  intros Hstatus Houtput Hurl Hreq.
  exists (expected_verdict self resp).
  rewrite (conduct_unfold _ _ _ _ Hurl), Hreq.
  assert (Hiff : expected_verdict self resp = true <->
                 status_code resp = expected
                 /\ PStr (text resp) = TestCase.output self).
  { unfold expected_verdict. rewrite Hstatus. cbn [int_eq].
    rewrite andb_true_iff, Z.eqb_eq, orb_true_iff, str_eq_spec.
    split; intros [Hcode Hbody]; (split; [exact Hcode | ]).
    - destruct Hbody as [Hnone | Hbody]; [ | exact Hbody].
      destruct (TestCase.output self); try discriminate Hnone.
      now contradiction Houtput.
    - now right. }
  split; [reflexivity | split; [exact Hiff | ]].
  rewrite <- not_true_iff_false, Hiff. split.
  - intros Hnot.
    destruct (Z.eq_dec (status_code resp) expected) as [Hcode | Hcode];
      [right | now left].
    intros Hbody. apply Hnot. now split.
  - intros [Hcode | Hbody] [Hcode' Hbody']; contradiction.
Qed.

(** C2. When a case expects no output (its [output] is [None]) and the
    request is answered, [conduct] returns [True] exactly when the status
    code of the response is the expected status, whatever the body of the
    response is. *)
Theorem conduct_without_output
    (self : TestCase.t) (base_uri url : pyval) (w w' : World)
    (resp : Response) (expected : Z) :
  TestCase.status self = PInt expected ->
  TestCase.output self = PNone ->
  py_add base_uri (TestCase.endpoint self) = Ok url ->
  request w (TestCase.method self) url = (inr resp, w') ->
  exists result : bool,
    conduct self base_uri w
      = (Ok result, w', [Request (TestCase.method self) url])
    /\ (result = true <-> status_code resp = expected)
    /\ (forall (v v' : World) (other : Response),
          request v (TestCase.method self) url = (inr other, v') ->
          status_code other = status_code resp ->
          fst (fst (conduct self base_uri v)) = Ok result).
Proof.
  intros Hstatus Houtput Hurl Hreq.
  exists (expected_verdict self resp).
  rewrite (conduct_unfold _ _ _ _ Hurl), Hreq.
  unfold expected_verdict. rewrite Hstatus, Houtput. cbn.
  rewrite !andb_true_r, Z.eqb_eq. repeat split; auto.
  intros v v' other Hother Hcode.
  rewrite (conduct_unfold _ _ _ _ Hurl), Hother. cbn.
  unfold expected_verdict. rewrite Hstatus, Houtput, Hcode. cbn.
  now rewrite andb_true_r.
Qed.

(** C7. For a base URI [b] and a case whose endpoint is the string [e], the
    one request that [conduct] sends goes to the URL [b ++ e]: the two
    strings joined as they are. *)
Theorem conduct_url_is_concatenation
    (self : TestCase.t) (b e : string) (w : World) :
  TestCase.endpoint self = PStr e ->
  snd (conduct self (PStr b) w) = [Request (TestCase.method self) (PStr (b ++ e))]
  /\ snd (fst (conduct self (PStr b) w))
     = snd (request w (TestCase.method self) (PStr (b ++ e))).
Proof.
  intros He.
  rewrite (conduct_unfold self (PStr b) (PStr (b ++ e)) w)
    by (rewrite He; reflexivity).
  destruct (request w (TestCase.method self) (PStr (b ++ e))) as [[info | resp] w'];
    split; reflexivity.
Qed.

(** ** The loops of [conduct_tests] *)

Lemma py_add_exn (a b : pyval) (e : pyexn) :
  py_add a b = Raise e -> e = TypeError \/ e = OverflowError.
Proof.
  destruct a, b; cbn; intros H; try (injection H as <-; now left);
    try discriminate;
    unfold float_of_int in H;
    match type of H with
    | context [binary_normalize ?p ?m ?n ?z ?s] =>
        destruct (binary_normalize p m n z s); cbn in H
    end;
    try discriminate; injection H as <-; now right.
Qed.

(** One turn of the inner loop, by what happens to its request. *)
Lemma run_case_unfold (base_uri : pyval) (c : TestCase.t) (w : World) :
  run_case base_uri c w =
    match py_add base_uri (TestCase.endpoint c) with
    | Raise e => (Raise e, w, [testing_line c])
    | Ok url =>
        match request w (TestCase.method c) url with
        | (inr resp, w') =>
            (Ok tt, w',
             [testing_line c; Request (TestCase.method c) url;
              verdict_line (c, resp)])
        | (inl info, w') =>
            (Raise (RequestRaised info), w',
             [testing_line c; Request (TestCase.method c) url])
        end
    end.
Proof.
  unfold run_case, bind at 1, cprint at 1. unfold bind at 1.
  destruct (py_add base_uri (TestCase.endpoint c)) as [url | e] eqn:Hurl.
  - rewrite (conduct_unfold _ _ _ _ Hurl).
    destruct (request w (TestCase.method c) url) as [[info | resp] w'].
    + reflexivity.
    + unfold verdict_line, result_line. cbn [fst snd].
      destruct (expected_verdict c resp); reflexivity.
  - rewrite (conduct_type_error _ _ _ _ Hurl). reflexivity.
Qed.

Lemma for_each_cons {A} (x : A) (xs : list A) (body : A -> Exec unit) (w : World) :
  for_each (x :: xs) body w =
    match body x w with
    | (Ok _, w1, t1) =>
        match for_each xs body w1 with
        | (r, w2, t2) => (r, w2, (t1 ++ t2)%list)
        end
    | (Raise e, w1, t1) => (Raise e, w1, t1)
    end.
Proof. reflexivity. Qed.

Lemma for_each_app {A} (xs ys : list A) (body : A -> Exec unit) (w : World) :
  for_each (xs ++ ys) body w =
    match for_each xs body w with
    | (Ok _, w1, t1) =>
        match for_each ys body w1 with
        | (r, w2, t2) => (r, w2, (t1 ++ t2)%list)
        end
    | (Raise e, w1, t1) => (Raise e, w1, t1)
    end.
Proof.
  revert w. induction xs as [| x xs IH]; intros w.
  - cbn. destruct (for_each ys body w) as [[r w2] t2]. reflexivity.
  - rewrite <- app_comm_cons, !for_each_cons.
    destruct (body x w) as [[[[] | e] w1] t1]; [ | reflexivity].
    rewrite IH.
    destruct (for_each xs body w1) as [[[[] | e] w2] t2]; [ | reflexivity].
    destruct (for_each ys body w2) as [[r w3] t3].
    now rewrite app_assoc.
Qed.

Lemma run_group_unfold (base_uri : pyval) (g : TestGroup.t) (w : World) :
  run_group base_uri g w =
    match for_each (TestGroup.test_cases g) (run_case base_uri) w with
    | (r, w', tr) => (r, w', header_line g :: tr)
    end.
Proof. reflexivity. Qed.

Lemma run_cases_exn (base_uri : pyval) (cases : list TestCase.t) :
  forall (w w' : World) (e : pyexn) (tr : list event),
    for_each cases (run_case base_uri) w = (Raise e, w', tr) -> loop_exn e.
Proof.
  induction cases as [| c cases IH]; intros w w' e tr H.
  - discriminate.
  - rewrite for_each_cons, run_case_unfold in H.
    destruct (py_add base_uri (TestCase.endpoint c)) as [url | e0] eqn:Hurl.
    + destruct (request w (TestCase.method c) url) as [[info | resp] w1].
      * injection H as <- _ _. right; right. now exists info.
      * destruct (for_each cases (run_case base_uri) w1) as [[r w2] t2] eqn:Hrest.
        injection H as -> _ _. eapply IH; eassumption.
    + injection H as <- _ _.
      destruct (py_add_exn _ _ _ Hurl) as [-> | ->]; unfold loop_exn; auto.
Qed.

Lemma run_groups_exn (base_uri : pyval) (groups : list TestGroup.t) :
  forall (w w' : World) (e : pyexn) (tr : list event),
    for_each groups (run_group base_uri) w = (Raise e, w', tr) -> loop_exn e.
Proof.
  induction groups as [| g groups IH]; intros w w' e tr H.
  - discriminate.
  - rewrite for_each_cons, run_group_unfold in H.
    destruct (for_each (TestGroup.test_cases g) (run_case base_uri) w)
      as [[[[] | e0] w1] t1] eqn:Hg.
    + destruct (for_each groups (run_group base_uri) w1) as [[r w2] t2] eqn:Hrest.
      injection H as -> _ _. eapply IH; eassumption.
    + injection H as <- _ _. eapply run_cases_exn; eassumption.
Qed.

Lemma conduct_tests_unfold (test : Test.t) (base_uri : pyval) (w : World) :
  conduct_tests test base_uri w =
    match resolve_base_uri test base_uri with
    | Ok u => for_each (Test.test_groups test) (run_group u) w
    | Raise e => (Raise e, w, [])
    end.
Proof.
  unfold conduct_tests, bind, lift.
  destruct (resolve_base_uri test base_uri) as [u | e]; cbn; [ | reflexivity].
  destruct (for_each (Test.test_groups test) (run_group u) w) as [[r w'] tr].
  reflexivity.
Qed.

Lemma verdict_line_kind (cr : TestCase.t * Response) :
  is_verdict (verdict_line cr) = true
  /\ is_announcement (verdict_line cr) = false
  /\ is_request (verdict_line cr) = false.
Proof.
  unfold verdict_line, result_line. cbn [fst snd].
  destruct (expected_verdict (fst cr) (snd cr)); repeat split; reflexivity.
Qed.

(** Whatever happens, the cases announced so far are the first cases of
    the list, in order; all of them when the loop ends normally. *)
Lemma run_cases_announced (base_uri : pyval) (cases : list TestCase.t) :
  forall w : World,
    exists rest,
      map testing_line cases
      = (filter is_announcement (snd (for_each cases (run_case base_uri) w))
         ++ rest)%list
      /\ (fst (fst (for_each cases (run_case base_uri) w)) = Ok tt -> rest = []).
Proof.
  induction cases as [| c cases IH]; intros w.
  - exists []. split; reflexivity.
  - rewrite for_each_cons, run_case_unfold.
    destruct (py_add base_uri (TestCase.endpoint c)) as [url | e].
    + destruct (request w (TestCase.method c) url) as [[info | resp] w1].
      * exists (map testing_line cases). split; [reflexivity | discriminate].
      * destruct (IH w1) as (rest & Hrest & Hok).
        destruct (for_each cases (run_case base_uri) w1) as [[r w2] t2].
        exists rest. cbn [fst snd] in *.
        destruct (verdict_line_kind (c, resp)) as (_ & Hv & _).
        cbn [app filter is_announcement testing_line map]. rewrite Hv.
        cbn [is_request]. split; [now rewrite Hrest | exact Hok].
    + exists (map testing_line cases). split; [reflexivity | discriminate].
Qed.

Lemma run_groups_announced (base_uri : pyval) (groups : list TestGroup.t) :
  forall w : World,
    exists rest,
      announced groups
      = (filter is_announcement (snd (for_each groups (run_group base_uri) w))
         ++ rest)%list
      /\ (fst (fst (for_each groups (run_group base_uri) w)) = Ok tt -> rest = []).
Proof.
  induction groups as [| g groups IH]; intros w.
  - exists []. split; reflexivity.
  - rewrite for_each_cons, run_group_unfold.
    destruct (run_cases_announced base_uri (TestGroup.test_cases g) w)
      as (rest1 & Hrest1 & Hok1).
    destruct (for_each (TestGroup.test_cases g) (run_case base_uri) w)
      as [[[[] | e] w1] t1]; cbn [fst snd] in *.
    + rewrite (Hok1 eq_refl), app_nil_r in Hrest1.
      destruct (IH w1) as (rest & Hrest & Hok).
      destruct (for_each groups (run_group base_uri) w1) as [[r w2] t2].
      cbn [fst snd] in *. exists rest. split; [ | exact Hok].
      unfold announced in *. cbn [flat_map]. rewrite Hrest1, Hrest.
      cbn [app filter is_announcement header_line].
      now rewrite filter_app, <- app_assoc.
    + exists (rest1 ++ announced groups)%list. split; [ | discriminate].
      unfold announced. cbn [flat_map]. rewrite Hrest1.
      cbn [app filter is_announcement header_line].
      now rewrite <- app_assoc.
Qed.

(** When every request is answered, the inner loop conducts every case once,
    in order, and prints a verdict for each. *)
Lemma run_cases_answered (b : string) (cases : list TestCase.t) :
  forall (reqs : list (pyval * pyval)) (rs : list Response) (w w' : World),
    Forall2 (planned b) cases reqs ->
    serve w reqs = Some (rs, w') ->
    exists tr,
      for_each cases (run_case (PStr b)) w = (Ok tt, w', tr)
      /\ filter is_request tr = map request_event reqs
      /\ filter is_verdict tr = map verdict_line (combine cases rs)
      /\ List.length rs = List.length cases.
Proof.
  induction cases as [| c cases IH]; intros reqs rs w w' Hplan Hserve.
  - inversion Hplan; subst. cbn in Hserve. injection Hserve as <- <-.
    exists []. repeat split; reflexivity.
  - inversion Hplan as [| c0 [m u] cases0 reqs0 (e & He & Hreq) Hrest]; subst.
    injection Hreq as -> ->.
    cbn [serve] in Hserve.
    rewrite for_each_cons, run_case_unfold, He. cbn [py_add].
    destruct (request w (TestCase.method c) (PStr (b ++ e))) as [[info | resp] w1];
      [discriminate | ].
    destruct (serve w1 reqs0) as [[rs0 w2] | ] eqn:Hserve0; [ | discriminate].
    injection Hserve as <- <-.
    destruct (IH _ _ _ _ Hrest Hserve0) as (tr & Hrun & Hreqs & Hverd & Hlen).
    rewrite Hrun. eexists. split; [reflexivity | ].
    destruct (verdict_line_kind (c, resp)) as (Hv1 & _ & Hv3).
    cbn [app filter is_request is_verdict testing_line map combine List.length].
    rewrite Hv1, Hv3, Hreqs, Hverd, Hlen. repeat split; reflexivity.
Qed.

Lemma serve_app (reqs1 reqs2 : list (pyval * pyval)) :
  forall (rs : list Response) (w w' : World),
    serve w (reqs1 ++ reqs2) = Some (rs, w') ->
    exists rs1 rs2 w1,
      serve w reqs1 = Some (rs1, w1)
      /\ serve w1 reqs2 = Some (rs2, w')
      /\ rs = (rs1 ++ rs2)%list.
Proof.
  induction reqs1 as [| [m u] reqs1 IH]; intros rs w w' H.
  - exists [], rs, w. repeat split; assumption.
  - cbn [app serve] in *.
    destruct (request w m u) as [[info | resp] w1]; [discriminate | ].
    destruct (serve w1 (reqs1 ++ reqs2)) as [[rs0 w2] | ] eqn:Hrest;
      [ | discriminate].
    injection H as <- <-.
    destruct (IH _ _ _ Hrest) as (rs1 & rs2 & w3 & H1 & H2 & ->).
    exists (resp :: rs1), rs2, w3. rewrite H1. repeat split; assumption.
Qed.

Lemma combine_app_same {A B} (xs1 xs2 : list A) (ys1 ys2 : list B) :
  List.length ys1 = List.length xs1 ->
  combine (xs1 ++ xs2) (ys1 ++ ys2)
  = (combine xs1 ys1 ++ combine xs2 ys2)%list.
Proof.
  revert ys1. induction xs1 as [| x xs1 IH]; intros [| y ys1] Hlen;
    try discriminate; cbn.
  - reflexivity.
  - f_equal. apply IH. now injection Hlen.
Qed.

Lemma combine_app_short {A B} (xs1 xs2 : list A) (ys : list B) :
  (List.length ys <= List.length xs1)%nat ->
  combine (xs1 ++ xs2) ys = combine xs1 ys.
Proof.
  revert ys. induction xs1 as [| x xs1 IH]; intros [| y ys] Hlen; cbn in *.
  - apply combine_nil.
  - inversion Hlen.
  - reflexivity.
  - f_equal. apply IH. now apply le_S_n.
Qed.

Lemma run_groups_answered (b : string) (groups : list TestGroup.t) :
  forall (reqs : list (pyval * pyval)) (rs : list Response) (w w' : World),
    Forall2 (planned b) (all_cases groups) reqs ->
    serve w reqs = Some (rs, w') ->
    exists tr,
      for_each groups (run_group (PStr b)) w = (Ok tt, w', tr)
      /\ filter is_request tr = map request_event reqs
      /\ filter is_verdict tr = map verdict_line (combine (all_cases groups) rs)
      /\ List.length rs = List.length (all_cases groups).
Proof.
  induction groups as [| g groups IH]; intros reqs rs w w' Hplan Hserve.
  - inversion Hplan; subst. cbn in Hserve. injection Hserve as <- <-.
    exists []. repeat split; reflexivity.
  - unfold all_cases in Hplan. cbn [flat_map] in Hplan.
    apply Forall2_app_inv_l in Hplan as (reqs1 & reqs2 & Hp1 & Hp2 & ->).
    apply serve_app in Hserve as (rs1 & rs2 & w1 & Hs1 & Hs2 & ->).
    destruct (run_cases_answered _ _ _ _ _ _ Hp1 Hs1)
      as (tr1 & Hrun1 & Hreq1 & Hverd1 & Hlen1).
    destruct (IH _ _ _ _ Hp2 Hs2) as (tr2 & Hrun2 & Hreq2 & Hverd2 & Hlen2).
    rewrite for_each_cons, run_group_unfold, Hrun1, Hrun2.
    eexists. split; [reflexivity | ].
    unfold all_cases. cbn [flat_map].
    rewrite combine_app_same by exact Hlen1.
    cbn [app filter is_request is_verdict header_line].
    rewrite !filter_app, !map_app, !length_app, Hreq1, Hreq2, Hverd1, Hverd2,
      Hlen1, Hlen2.
    repeat split; reflexivity.
Qed.

(** ** The base URI *)

(** C3 (amended). An override that is not [None] is the base URI of the
    run, the empty string included, whatever the default of the bundle is;
    when the override is [None], the default of the bundle is used. *)
Theorem override_takes_precedence (test : Test.t) (override : pyval) (w : World) :
  (override <> PNone ->
     resolve_base_uri test override = Ok override
     /\ conduct_tests test override w
        = for_each (Test.test_groups test) (run_group override) w)
  /\ (override = PNone -> Test.default_uri test <> PNone ->
       resolve_base_uri test override = Ok (Test.default_uri test)
       /\ conduct_tests test override w
          = for_each (Test.test_groups test)
              (run_group (Test.default_uri test)) w).
Proof.
  split.
  - intros Hsome. rewrite conduct_tests_unfold. unfold resolve_base_uri.
    destruct override; try contradiction; split; reflexivity.
  - intros -> Hdef. rewrite conduct_tests_unfold. unfold resolve_base_uri.
    cbn [is_none].
    destruct (Test.default_uri test); try contradiction; split; reflexivity.
Qed.

(** C4. With neither an override nor a default URI, [conduct_tests] raises
    at once: the world is untouched and the trace is empty, so no request
    was sent.  With at least one of them, a base URI is found, the loops
    are entered, and what they may raise is never that error. *)
Theorem no_base_uri_fails_before_any_request
    (test : Test.t) (base_uri : pyval) (w : World) :
  (base_uri = PNone -> Test.default_uri test = PNone ->
     conduct_tests test base_uri w = (Raise NoBaseUri, w, []))
  /\ (base_uri <> PNone \/ Test.default_uri test <> PNone ->
       exists u,
         resolve_base_uri test base_uri = Ok u
         /\ conduct_tests test base_uri w
            = for_each (Test.test_groups test) (run_group u) w
         /\ fst (fst (conduct_tests test base_uri w)) <> Raise NoBaseUri).
Proof.
  split.
  - intros -> Hdef. rewrite conduct_tests_unfold. unfold resolve_base_uri.
    rewrite Hdef. reflexivity.
  - intros Hsome.
    assert (Hres : exists u, resolve_base_uri test base_uri = Ok u).
    { unfold resolve_base_uri.
      destruct base_uri; cbn [is_none]; try (eexists; reflexivity).
      destruct (Test.default_uri test); cbn [is_none];
        try (eexists; reflexivity).
      destruct Hsome as [H | H]; contradiction. }
    destruct Hres as (u & Hu). exists u.
    rewrite conduct_tests_unfold, Hu. repeat split.
    destruct (for_each (Test.test_groups test) (run_group u) w)
      as [[[[] | e] w'] tr] eqn:Hrun; cbn [fst]; [discriminate | ].
    intros Heq. injection Heq as ->.
    apply run_groups_exn in Hrun.
    destruct Hrun as [H | [H | (info & H)]]; discriminate.
Qed.

(** C8. When the base URI and the endpoints are strings and the server
    answers every request, the run ends normally whatever the verdicts
    are: the requests sent are those of all cases of all groups, once each
    and in order; every case gets its verdict line, [Failed!] ones
    included; and every group and case is announced. *)
Theorem failed_cases_do_not_stop_the_run
    (test : Test.t) (base_uri : pyval) (b : string)
    (reqs : list (pyval * pyval)) (rs : list Response) (w w' : World) :
  resolve_base_uri test base_uri = Ok (PStr b) ->
  Forall2 (planned b) (all_cases (Test.test_groups test)) reqs ->
  serve w reqs = Some (rs, w') ->
  exists tr,
    conduct_tests test base_uri w = (Ok tt, w', tr)
    /\ filter is_request tr = map request_event reqs
    /\ filter is_verdict tr
       = map verdict_line (combine (all_cases (Test.test_groups test)) rs)
    /\ List.length rs = List.length (all_cases (Test.test_groups test))
    /\ filter is_announcement tr = announced (Test.test_groups test).
Proof.
  intros Hres Hplan Hserve.
  destruct (run_groups_answered _ _ _ _ _ _ Hplan Hserve)
    as (tr & Hrun & Hreq & Hverd & Hlen).
  exists tr. rewrite conduct_tests_unfold, Hres.
  repeat split; try assumption.
  destruct (run_groups_announced (PStr b) (Test.test_groups test) w)
    as (rest & Hrest & Hok).
  rewrite Hrun in Hrest, Hok. cbn [fst snd] in *.
  rewrite (Hok eq_refl), app_nil_r in Hrest. now symmetry.
Qed.

(** C10. A group without cases still has its name printed, and nothing
    else: no case line, no request, the world unchanged; the run goes on
    with the groups after it. *)
Theorem empty_group_prints_its_name
    (base_uri : pyval) (g : TestGroup.t) (before after : list TestGroup.t)
    (w w1 : World) (t1 : list event) :
  TestGroup.test_cases g = [] ->
  run_group base_uri g w = (Ok tt, w, [Cprint (TestGroup.name g) blue LF])
  /\ (for_each before (run_group base_uri) w = (Ok tt, w1, t1) ->
       for_each (before ++ g :: after) (run_group base_uri) w
       = match for_each after (run_group base_uri) w1 with
         | (r, w2, t2) =>
             (r, w2, (t1 ++ Cprint (TestGroup.name g) blue LF :: t2)%list)
         end).
Proof.
  intros Hempty. split.
  - rewrite run_group_unfold, Hempty. reflexivity.
  - intros Hbefore.
    rewrite for_each_app, Hbefore, for_each_cons, run_group_unfold, Hempty.
    cbn [for_each ret].
    destruct (for_each after (run_group base_uri) w1) as [[r w2] t2].
    reflexivity.
Qed.

(** ** Facts about the parser *)

Lemma dict_remove_absent (k : string) (d : pydict) :
  dict_get k d = None -> dict_remove k d = d.
Proof.
  unfold dict_remove.
  induction d as [| [k' v] d IH]; cbn; [reflexivity | ].
  destruct (String.eqb k k'); [discriminate | ].
  intros H. cbn. now rewrite (IH H).
Qed.

Lemma dict_get_remove_same (k : string) (d : pydict) :
  dict_get k (dict_remove k d) = None.
Proof.
  unfold dict_remove.
  induction d as [| [k' v] d IH]; cbn; [reflexivity | ].
  destruct (String.eqb k k') eqn:E; cbn; [exact IH | ].
  now rewrite E.
Qed.

Lemma dict_get_remove_other (k k' : string) (d : pydict) :
  String.eqb k k' = false ->
  dict_get k' (dict_remove k d) = dict_get k' d.
Proof.
  intros Hne. unfold dict_remove.
  induction d as [| [k0 v] d IH]; cbn; [reflexivity | ].
  destruct (String.eqb k k0) eqn:E; cbn.
  - apply String.eqb_eq in E. subst k0.
    rewrite String.eqb_sym, Hne. exact IH.
  - now rewrite IH.
Qed.

Lemma remove_reserved (d : pydict) :
  dict_remove "Name" (dict_remove "Default URI" d) = group_entries d.
Proof.
  unfold dict_remove, group_entries, reserved.
  induction d as [| [k v] d IH]; [reflexivity | ].
  cbn [filter fst].
  destruct (String.eqb "Default URI" k) eqn:E1; cbn [negb filter fst].
  - rewrite orb_true_r. exact IH.
  - rewrite orb_false_r.
    destruct (String.eqb "Name" k); cbn [negb]; [exact IH | now rewrite IH].
Qed.

(** What [parse_test_groups] leaves of the dictionary it was given. *)
Lemma parse_test_groups_state (d : pydict) :
  snd (parse_test_groups d) = group_entries d.
Proof.
  unfold parse_test_groups, dict_del.
  assert (H1 : (if dict_mem "Default URI" d
                then dict_remove "Default URI" d else d)
               = dict_remove "Default URI" d).
  { unfold dict_mem.
    destruct (dict_get "Default URI" d) eqn:E; [reflexivity | ].
    now rewrite dict_remove_absent. }
  rewrite H1. unfold dict_mem.
  destruct (dict_get "Name" (dict_remove "Default URI" d)) eqn:E; cbn [snd].
  - apply remove_reserved.
  - rewrite <- remove_reserved. now rewrite (dict_remove_absent "Name").
Qed.

Lemma parse_test_groups_result (d : pydict) :
  fst (parse_test_groups d)
  = if dict_mem "Name" d
    then parse_named (group_entries d) (dict_keys (group_entries d))
    else Raise (KeyError "Name").
Proof.
  pose proof (parse_test_groups_state d) as Hstate.
  unfold parse_test_groups, dict_del in *.
  assert (Hname : dict_mem "Name"
                    (if dict_mem "Default URI" d
                     then dict_remove "Default URI" d else d)
                  = dict_mem "Name" d).
  { destruct (dict_mem "Default URI" d); [ | reflexivity].
    unfold dict_mem. now rewrite dict_get_remove_other. }
  rewrite Hname in *.
  destruct (dict_mem "Name" d); cbn [fst snd] in *; [ | reflexivity].
  now rewrite Hstate.
Qed.

Lemma group_entries_get (d : pydict) (k : string) :
  dict_get k (group_entries d) = if reserved k then None else dict_get k d.
Proof.
  rewrite <- remove_reserved. unfold reserved.
  destruct (String.eqb "Name" k) eqn:E1; cbn [orb].
  - apply String.eqb_eq in E1. subst k. apply dict_get_remove_same.
  - rewrite dict_get_remove_other by exact E1.
    destruct (String.eqb "Default URI" k) eqn:E2.
    + apply String.eqb_eq in E2. subst k. apply dict_get_remove_same.
    + now apply dict_get_remove_other.
Qed.

(** C9. [parse_test_groups] changes the dictionary it is given: when it
    ends, ["Name"] and ["Default URI"] are no longer keys of it and the
    other entries are as before.  Reading ["Default URI"] afterwards gives
    [None], so [parse_tests] reads it first, from the dictionary as
    loaded.  A second call on the same dictionary raises [KeyError] on
    ["Name"]. *)
Theorem parse_test_groups_deletes_reserved_keys (d : pydict) :
  let d' := snd (parse_test_groups d) in
  d' = group_entries d
  /\ dict_mem "Name" d' = false
  /\ dict_mem "Default URI" d' = false
  /\ (forall k, reserved k = false -> dict_get k d' = dict_get k d)
  /\ py_get (PDict d') "Default URI" = Ok PNone
  /\ (forall test, parse_tests (PDict d) = Ok test ->
        py_get (PDict d) "Default URI" = Ok (Test.default_uri test))
  /\ parse_test_groups d' = (Raise (KeyError "Name"), d').
Proof.
  cbn zeta. rewrite parse_test_groups_state.
  assert (Hname : dict_get "Name" (group_entries d) = None)
    by (now rewrite group_entries_get).
  assert (Huri : dict_get "Default URI" (group_entries d) = None)
    by (now rewrite group_entries_get).
  repeat split.
  - unfold dict_mem. now rewrite Hname.
  - unfold dict_mem. now rewrite Huri.
  - intros k Hk. now rewrite group_entries_get, Hk.
  - cbn. now rewrite Huri.
  - intros test Hparse. unfold parse_tests in Hparse. cbn in Hparse.
    destruct (dict_getitem "Name" d); cbn in Hparse; [ | discriminate].
    destruct (fst (parse_test_groups d)); cbn in Hparse; [ | discriminate].
    injection Hparse as <-. reflexivity.
  - unfold parse_test_groups, dict_del, dict_mem.
    rewrite Huri, Hname. reflexivity.
Qed.

(** The verdicts printed so far are those of the first cases of the list,
    in order, one per case; of all the cases when the loop ends normally. *)
Lemma run_cases_verdicts (base_uri : pyval) (cases : list TestCase.t) :
  forall w : World,
    exists results : list bool,
      filter is_verdict (snd (for_each cases (run_case base_uri) w))
      = map result_line (combine cases results)
      /\ (List.length results <= List.length cases)%nat
      /\ (fst (fst (for_each cases (run_case base_uri) w)) = Ok tt ->
          List.length results = List.length cases).
Proof.
  induction cases as [| c cases IH]; intros w.
  - exists []. repeat split; reflexivity || apply le_n.
  - rewrite for_each_cons, run_case_unfold.
    destruct (py_add base_uri (TestCase.endpoint c)) as [url | e].
    + destruct (request w (TestCase.method c) url) as [[info | resp] w1].
      * exists []. cbn. repeat split; try discriminate. apply Nat.le_0_l.
      * destruct (IH w1) as (results & Hres & Hle & Hok).
        destruct (for_each cases (run_case base_uri) w1) as [[r w2] t2].
        exists (expected_verdict c resp :: results). cbn [fst snd] in *.
        destruct (verdict_line_kind (c, resp)) as (Hv & _ & _).
        cbn [app filter is_verdict is_request testing_line map combine
               List.length].
        rewrite Hv, Hres. repeat split.
        -- now apply le_n_S.
        -- intros H. now rewrite (Hok H).
    + exists []. cbn. repeat split; try discriminate. apply Nat.le_0_l.
Qed.

Lemma run_groups_verdicts (base_uri : pyval) (groups : list TestGroup.t) :
  forall w : World,
    exists results : list bool,
      filter is_verdict (snd (for_each groups (run_group base_uri) w))
      = map result_line (combine (all_cases groups) results)
      /\ (List.length results <= List.length (all_cases groups))%nat
      /\ (fst (fst (for_each groups (run_group base_uri) w)) = Ok tt ->
          List.length results = List.length (all_cases groups)).
Proof.
  induction groups as [| g groups IH]; intros w.
  - exists []. repeat split; reflexivity || apply le_n.
  - rewrite for_each_cons, run_group_unfold.
    destruct (run_cases_verdicts base_uri (TestGroup.test_cases g) w)
      as (res1 & Hres1 & Hle1 & Hok1).
    unfold all_cases. cbn [flat_map]. fold (all_cases groups).
    destruct (for_each (TestGroup.test_cases g) (run_case base_uri) w)
      as [[[[] | e] w1] t1]; cbn [fst snd] in *.
    + specialize (Hok1 eq_refl).
      destruct (IH w1) as (res2 & Hres2 & Hle2 & Hok2).
      destruct (for_each groups (run_group base_uri) w1) as [[r w2] t2].
      cbn [fst snd] in *. exists (res1 ++ res2)%list.
      rewrite combine_app_same by exact Hok1.
      cbn [app filter is_verdict header_line].
      rewrite filter_app, map_app, Hres1, Hres2, !length_app, Hok1.
      repeat split.
      * now apply Nat.add_le_mono_l.
      * intros H. now rewrite (Hok2 H).
    + exists res1. cbn [filter is_verdict header_line]. rewrite Hres1.
      rewrite length_app. repeat split; try discriminate.
      * now rewrite combine_app_short.
      * now apply Nat.le_trans with (1 := Hle1), Nat.le_add_r.
Qed.

(** *** Order of groups and cases *)

Lemma parse_each_ok (elements : list pyval) :
  forall cases,
    parse_each elements = Ok cases <->
    Forall2 (fun e c => parse_test_case e = Ok c) elements cases.
Proof.
  induction elements as [| e elements IH]; intros cases; cbn [parse_each].
  - split.
    + intros H. injection H as <-. constructor.
    + intros H. inversion H. reflexivity.
  - split.
    + intros H.
      destruct (parse_test_case e) as [c | x] eqn:Hc; cbn in H; [ | discriminate].
      destruct (parse_each elements) as [cs | x]; cbn in H; [ | discriminate].
      injection H as <-. constructor; [exact Hc | now apply IH].
    + intros H. inversion H as [| e0 c es cs Hc Hrest]; subst.
      rewrite Hc. apply IH in Hrest. rewrite Hrest. reflexivity.
Qed.

Lemma parse_named_ok (d : pydict) (names : list string) :
  forall groups,
    parse_named d names = Ok groups -> Forall2 (group_of_key d) groups names.
Proof.
  induction names as [| k names IH]; intros groups H; cbn [parse_named] in H.
  - injection H as <-. constructor.
  - unfold dict_getitem, parse_test_cases in H.
    destruct (dict_get k d) as [data | ] eqn:Hget; cbn in H; [ | discriminate].
    destruct (py_iter data) as [elements | x] eqn:Hiter; cbn in H;
      [ | discriminate].
    destruct (parse_each elements) as [cases | x] eqn:Hcases; cbn in H;
      [ | discriminate].
    destruct (parse_named d names) as [rest | x]; cbn in H; [ | discriminate].
    injection H as <-. constructor; [ | now apply IH].
    split; [reflexivity | ]. exists data, elements.
    repeat split; try assumption. now apply parse_each_ok.
Qed.

Lemma dict_get_in (d : pydict) (k : string) (v : pyval) :
  dict_wf d -> In (k, v) d -> dict_get k d = Some v.
Proof.
  unfold dict_wf. induction d as [| [k0 v0] d IH]; intros Hwf Hin.
  - contradiction.
  - cbn [map fst] in Hwf. inversion Hwf as [| x xs Hnotin Hnodup]; subst.
    cbn [dict_get]. destruct Hin as [Heq | Hin].
    + injection Heq as -> ->. now rewrite String.eqb_refl.
    + destruct (String.eqb k k0) eqn:E.
      * apply String.eqb_eq in E. subst k0. exfalso. apply Hnotin.
        change k with (fst (k, v)). now apply in_map.
      * now apply IH.
Qed.

Lemma keys_of_group_entries (d : pydict) :
  dict_keys (group_entries d)
  = filter (fun k => negb (reserved k)) (dict_keys d).
Proof.
  unfold dict_keys, group_entries.
  induction d as [| [k v] d IH]; [reflexivity | ].
  cbn [filter map fst]. destruct (negb (reserved k)); cbn [map fst];
    now rewrite IH.
Qed.

Lemma group_entries_wf (d : pydict) : dict_wf d -> dict_wf (group_entries d).
Proof.
  unfold dict_wf. fold (dict_keys d). fold (dict_keys (group_entries d)).
  rewrite keys_of_group_entries. apply NoDup_filter.
Qed.

Lemma groups_of_entries (d : pydict) (es : pydict) :
  (forall k v, In (k, v) es -> dict_get k d = Some v) ->
  forall groups,
    Forall2 (group_of_key d) groups (map fst es) ->
    Forall2 group_of_entry groups es.
Proof.
  intros Hget. induction es as [| [k v] es IH]; intros groups H.
  - inversion H. constructor.
  - cbn [map fst] in H. inversion H as [| g k0 gs ks Hg Hrest]; subst.
    constructor.
    + destruct Hg as (Hname & data & elements & Hdata & Hiter & Hcases).
      rewrite (Hget k v (or_introl eq_refl)) in Hdata. injection Hdata as <-.
      split; [exact Hname | ]. now exists elements.
    + apply IH; [ | exact Hrest].
      intros k1 v1 Hin. apply Hget. now right.
Qed.

Lemma parse_tests_ok (d : pydict) (test : Test.t) :
  parse_tests (PDict d) = Ok test ->
  exists name,
    dict_get "Name" d = Some name
    /\ parse_named (group_entries d) (dict_keys (group_entries d))
       = Ok (Test.test_groups test)
    /\ Test.name test = name
    /\ Test.variables test = []
    /\ py_get (PDict d) "Default URI" = Ok (Test.default_uri test).
Proof.
  intros H. unfold parse_tests in H. cbn [py_get py_getitem obind] in H.
  unfold dict_getitem in H.
  destruct (dict_get "Name" d) as [name | ] eqn:Hname; cbn [obind] in H;
    [ | discriminate].
  rewrite parse_test_groups_result in H. unfold dict_mem in H.
  rewrite Hname in H.
  destruct (parse_named (group_entries d) (dict_keys (group_entries d)))
    as [groups | x]; cbn [obind] in H; [ | discriminate].
  injection H as <-. exists name. repeat split.
Qed.

(** *** Failures of the parser *)











Lemma main_unfold (program_data : pyval) (base_uri : string) (w : World) :
  main program_data base_uri w =
    match parse_tests program_data with
    | Ok test => conduct_tests test (PStr base_uri) w
    | Raise e => (Raise e, w, [])
    end.
Proof.
  unfold main, bind, lift.
  destruct (parse_tests program_data) as [test | e]; unfold ret, raise;
    [ | reflexivity].
  destruct (conduct_tests test (PStr base_uri) w) as [[r w'] tr]. reflexivity.
Qed.

(** ** More on the parser *)

Lemma parse_tests_dict (d : pydict) :
  parse_tests (PDict d)
  = match dict_get "Name" d with
    | Some name =>
        let? test_groups :=
          parse_named (group_entries d) (dict_keys (group_entries d)) in
        Ok (Test.mk name []
              (match dict_get "Default URI" d with
               | Some x => x
               | None => PNone
               end) test_groups)
    | None => Raise (KeyError "Name")
    end.
Proof.
  unfold parse_tests. cbn [py_get py_getitem obind]. unfold dict_getitem.
  rewrite parse_test_groups_result. unfold dict_mem.
  destruct (dict_get "Name" d); reflexivity.
Qed.

(** X1. A group whose value is not an array: the empty string and the
    empty object give a group without cases; every other value raises
    [TypeError] (a string or an object because its first element, a
    string, is no case object; the others because they cannot be
    iterated). *)
Theorem group_value_not_an_array (v : pyval) :
  (forall items, v <> PList items) ->
  (v = PStr "" \/ v = PDict [] -> parse_test_cases v = Ok [])
  /\ (v <> PStr "" -> v <> PDict [] -> parse_test_cases v = Raise TypeError).
Proof.
  intros Hv. split.
  - intros [-> | ->]; reflexivity.
  - intros Hs Hd. unfold parse_test_cases.
    destruct v as [ | | | | s | items | entries]; try reflexivity.
    + destruct s as [| a s]; [now contradiction Hs | reflexivity].
    + now contradiction (Hv items).
    + destruct entries as [| [k x] entries]; [now contradiction Hd | reflexivity].
Qed.

Lemma parse_test_case_object (c : pydict) :
  match first_missing c with
  | Some f =>
      In f required_fields /\ parse_test_case (PDict c) = Raise (KeyError f)
  | None =>
      exists n e m st,
        dict_get "Status" c = Some st
        /\ parse_test_case (PDict c)
           = Ok (TestCase.mk n e m st
                   (match dict_get "Output" c with
                    | Some o => o
                    | None => PNone
                    end))
  end.
Proof.
  unfold first_missing, required_fields, parse_test_case, py_getitem, py_get,
    dict_getitem, dict_mem.
  cbn [find].
  destruct (dict_get "Name" c) as [n | ]; cbn [negb obind];
    [ | split; [now left | reflexivity]].
  destruct (dict_get "Endpoint" c) as [e | ]; cbn [negb obind];
    [ | split; [right; now left | reflexivity]].
  destruct (dict_get "Method" c) as [m | ]; cbn [negb obind];
    [ | split; [right; right; now left | reflexivity]].
  destruct (dict_get "Status" c) as [st | ]; cbn [negb obind];
    [ | split; [right; right; right; now left | reflexivity]].
  exists n, e, m, st. split; reflexivity.
Qed.

(** X2. [parse_test_case] on an object reports the first field it lacks, in
    the order ["Name"], ["Endpoint"], ["Method"], ["Status"], whatever else
    is missing; it succeeds when none of the four is missing. *)
Theorem parse_test_case_reports_first_missing (c : pydict) :
  match first_missing c with
  | Some f => parse_test_case (PDict c) = Raise (KeyError f)
  | None => exists test_case, parse_test_case (PDict c) = Ok test_case
  end.
Proof.
  pose proof (parse_test_case_object c) as H.
  destruct (first_missing c) as [f | ].
  - exact (proj2 H).
  - destruct H as (n & e & m & st & _ & H). eexists. exact H.
Qed.

(** X3. [parse_test_case] reads five keys of a case object and nothing
    else: two objects that agree on ["Name"], ["Endpoint"], ["Method"],
    ["Status"] and ["Output"] give the same result, whatever other keys
    they hold and in whatever order. *)
Theorem parse_test_case_reads_five_keys (c c' : pydict) :
  (forall k, In k case_keys -> dict_get k c = dict_get k c') ->
  parse_test_case (PDict c) = parse_test_case (PDict c').
Proof.
  intros Hsame.
  unfold parse_test_case, py_getitem, py_get, dict_getitem.
  rewrite <- (Hsame "Name"), <- (Hsame "Endpoint"), <- (Hsame "Method"),
    <- (Hsame "Status"), <- (Hsame "Output");
    try reflexivity; unfold case_keys, required_fields; cbn [app In];
    repeat (first [left; reflexivity | right]).
Qed.

Lemma parse_test_case_exn (v : pyval) (e : pyexn) :
  parse_test_case v = Raise e ->
  e = TypeError \/ exists k, In k required_fields /\ e = KeyError k.
Proof.
  intros H. destruct v as [ | | | | | | c];
    try (injection H as <-; now left).
  pose proof (parse_test_case_object c) as Hc.
  destruct (first_missing c) as [f | ].
  - destruct Hc as (Hf & Hraise). rewrite Hraise in H. injection H as <-.
    right. now exists f.
  - destruct Hc as (n & x & m & st & _ & Hok). rewrite Hok in H. discriminate.
Qed.

Lemma parse_each_exn (elements : list pyval) (e : pyexn) :
  parse_each elements = Raise e ->
  e = TypeError \/ exists k, In k required_fields /\ e = KeyError k.
Proof.
  induction elements as [| x elements IH]; cbn [parse_each]; [discriminate | ].
  destruct (parse_test_case x) as [tc | e0] eqn:Hx; cbn [obind].
  - destruct (parse_each elements) as [cases | e1]; cbn [obind];
      [discriminate | ].
    intros H. injection H as <-. now apply IH.
  - intros H. injection H as <-. now apply parse_test_case_exn in Hx.
Qed.

Lemma dict_get_key (d : pydict) (k : string) :
  In k (dict_keys d) -> exists v, dict_get k d = Some v.
Proof.
  unfold dict_keys. induction d as [| [k0 v0] d IH]; cbn [map fst In dict_get].
  - contradiction.
  - intros [-> | Hin].
    + rewrite String.eqb_refl. now exists v0.
    + destruct (String.eqb k k0); [now exists v0 | now apply IH].
Qed.

Lemma parse_named_exn (d : pydict) (names : list string) (e : pyexn) :
  (forall k, In k names -> exists v, dict_get k d = Some v) ->
  parse_named d names = Raise e ->
  e = TypeError \/ exists k, In k required_fields /\ e = KeyError k.
Proof.
  induction names as [| k names IH]; intros Hkeys; cbn [parse_named];
    [discriminate | ].
  destruct (Hkeys k (or_introl eq_refl)) as (v & Hv).
  unfold dict_getitem. rewrite Hv. unfold parse_test_cases. cbn [obind].
  destruct (py_iter v) as [elements | e0] eqn:Hiter; cbn [obind].
  - destruct (parse_each elements) as [cases | e1] eqn:Hcases; cbn [obind].
    + destruct (parse_named d names) as [groups | e2]; cbn [obind];
        [discriminate | ].
      intros H. injection H as <-. apply IH; [ | reflexivity].
      intros k1 Hin. apply Hkeys. now right.
    + intros H. injection H as <-. now apply parse_each_exn in Hcases.
  - intros H. injection H as <-. left.
    destruct v; cbn [py_iter] in Hiter; try discriminate;
      now injection Hiter as <-.
Qed.

Lemma parse_tests_raises (v : pyval) (e : pyexn) :
  parse_tests v = Raise e ->
  ((forall d, v <> PDict d) /\ e = AttributeError)
  \/ ((exists d, v = PDict d)
      /\ (e = TypeError \/ exists k, In k required_fields /\ e = KeyError k)).
Proof.
  intros H.
  destruct v as [ | | | | | | d];
    try (injection H as <-; left; split; [intros d; discriminate | reflexivity]).
  right. split; [now exists d | ].
  rewrite parse_tests_dict in H.
  destruct (dict_get "Name" d) as [name | ].
  - destruct (parse_named (group_entries d) (dict_keys (group_entries d)))
      as [groups | e0] eqn:Hnamed; cbn [obind] in H; [discriminate | ].
    injection H as <-.
    apply parse_named_exn with (d := group_entries d)
                               (names := dict_keys (group_entries d));
      [ | exact Hnamed].
    intros k Hin. now apply dict_get_key.
  - injection H as <-. right. exists "Name". split; [now left | reflexivity].
Qed.

(** X4. What the parser can raise.  On a decoded document that is not an
    object it raises [AttributeError]; on an object it never does, and
    what it raises then is [TypeError] or a [KeyError] on one of ["Name"],
    ["Endpoint"], ["Method"], ["Status"]: never a [KeyError] on a group
    name or on ["Default URI"] or ["Output"]. *)
Theorem parse_tests_exceptions (v : pyval) :
  ((forall d, v <> PDict d) -> parse_tests v = Raise AttributeError)
  /\ (forall e, parse_tests v = Raise e ->
        parser_exn e /\ (e = AttributeError <-> forall d, v <> PDict d)).
Proof.
  split.
  - intros Hnot. destruct v; try reflexivity. now contradiction (Hnot entries).
  - intros e H. unfold parser_exn.
    destruct (parse_tests_raises v e H)
      as [(Hnot & ->) | ((d & ->) & [-> | (k & Hk & ->)])].
    + split; [now left | ]. split; [intros _; exact Hnot | reflexivity].
    + split; [right; now left | ].
      split; [discriminate | intros Hnot; now contradiction (Hnot d)].
    + split; [right; right; now exists k | ].
      split; [discriminate | intros Hnot; now contradiction (Hnot d)].
Qed.

(** X5. Called on a dictionary without ["Name"], [parse_test_groups]
    raises [KeyError] on ["Name"], and by then it has deleted
    ["Default URI"] from the dictionary of its caller: the failure leaves
    the dictionary changed. *)
Theorem parse_test_groups_without_name (d : pydict) :
  dict_get "Name" d = None ->
  parse_test_groups d = (Raise (KeyError "Name"), dict_remove "Default URI" d).
Proof.
  intros Hname. unfold parse_test_groups, dict_del.
  assert (Hstate : (if dict_mem "Default URI" d
                    then dict_remove "Default URI" d else d)
                   = dict_remove "Default URI" d).
  { unfold dict_mem. destruct (dict_get "Default URI" d) eqn:E;
      [reflexivity | now rewrite dict_remove_absent]. }
  rewrite Hstate. unfold dict_mem.
  rewrite dict_get_remove_other by reflexivity.
  now rewrite Hname.
Qed.

Lemma names_of_groups (d : pydict) (groups : list TestGroup.t)
    (names : list string) :
  Forall2 (group_of_key d) groups names -> map TestGroup.name groups = names.
Proof.
  induction 1 as [| g k gs ks (Hname & _) _ IH]; [reflexivity | ].
  cbn [map]. now rewrite Hname, IH.
Qed.

(** X6. In a parsed bundle the names of the groups are pairwise distinct,
    each is a key of the document, and none is ["Name"] or
    ["Default URI"]: these two can never name a group. *)
Theorem group_names_distinct (d : pydict) (test : Test.t) :
  dict_wf d ->
  parse_tests (PDict d) = Ok test ->
  NoDup (map TestGroup.name (Test.test_groups test))
  /\ Forall (fun g => reserved (TestGroup.name g) = false
                      /\ In (TestGroup.name g) (dict_keys d))
       (Test.test_groups test).
Proof.
  intros Hwf Hparse.
  destruct (parse_tests_ok _ _ Hparse) as (name & _ & Hnamed & _).
  apply parse_named_ok, names_of_groups in Hnamed.
  rewrite keys_of_group_entries in Hnamed. split.
  - rewrite Hnamed. apply NoDup_filter. exact Hwf.
  - apply Forall_forall. intros g Hg.
    assert (Hin : In (TestGroup.name g)
                    (filter (fun k => negb (reserved k)) (dict_keys d))).
    { rewrite <- Hnamed. now apply in_map. }
    apply filter_In in Hin. destruct Hin as (Hin & Hres).
    split; [now apply negb_true_iff | exact Hin].
Qed.

(** X7. A bundle whose ["Default URI"] is [null] has no default, as if the
    key were absent: run without an override it raises at once, before
    anything is printed or sent. *)
Theorem null_default_uri_is_no_default (d : pydict) (test : Test.t) (w : World) :
  parse_tests (PDict d) = Ok test ->
  dict_get "Default URI" d = None \/ dict_get "Default URI" d = Some PNone ->
  conduct_tests test PNone w = (Raise NoBaseUri, w, []).
Proof.
  intros Hparse Hdefault.
  destruct (parse_tests_ok _ _ Hparse) as (name & _ & _ & _ & _ & Hget).
  cbn [py_get] in Hget. injection Hget as Hget.
  rewrite conduct_tests_unfold. unfold resolve_base_uri. cbn [is_none].
  rewrite <- Hget. destruct Hdefault as [-> | ->]; reflexivity.
Qed.

(** ** More on the executor *)

(** X8. A case object whose ["Output"] is [null], or that has none, gives
    a case that is judged on the status code alone: once parsed, it passes
    exactly when the status code of the response is the ["Status"] of the
    object. *)
Theorem null_output_checks_status_only
    (c : pydict) (test_case : TestCase.t) (n : Z) (base_uri url : pyval)
    (w w' : World) (resp : Response) :
  parse_test_case (PDict c) = Ok test_case ->
  dict_get "Status" c = Some (PInt n) ->
  dict_get "Output" c = None \/ dict_get "Output" c = Some PNone ->
  py_add base_uri (TestCase.endpoint test_case) = Ok url ->
  request w (TestCase.method test_case) url = (inr resp, w') ->
  conduct test_case base_uri w
  = (Ok (status_code resp =? n), w', [Request (TestCase.method test_case) url]).
Proof.
  intros Hparse Hstatus Houtput Hurl Hreq.
  rewrite (conduct_unfold _ _ _ _ Hurl), Hreq.
  pose proof (parse_test_case_object c) as Hc.
  destruct (first_missing c) as [f | ];
    [destruct Hc as (_ & Hraise); rewrite Hraise in Hparse; discriminate | ].
  destruct Hc as (nm & x & m & st & Hst & Hok).
  rewrite Hok in Hparse. injection Hparse as <-.
  rewrite Hstatus in Hst. injection Hst as <-.
  unfold expected_verdict. cbn [TestCase.status TestCase.output int_eq].
  destruct Houtput as [-> | ->]; cbn [is_none orb]; now rewrite andb_true_r.
Qed.

Lemma resolve_given (test : Test.t) (b : string) :
  resolve_base_uri test (PStr b) = Ok (PStr b).
Proof. reflexivity. Qed.

(** X9. Started from the command line, where the base URI is always given,
    the script never uses the default URI of the bundle: two documents
    that differ in their ["Default URI"] only behave alike. *)
Theorem main_ignores_default_uri (d d' : pydict) (base_uri : string) (w : World) :
  dict_remove "Default URI" d = dict_remove "Default URI" d' ->
  main (PDict d) base_uri w = main (PDict d') base_uri w.
Proof.
  intros Hsame.
  assert (Hname : dict_get "Name" d = dict_get "Name" d').
  { rewrite <- (dict_get_remove_other "Default URI" "Name" d) by reflexivity.
    rewrite <- (dict_get_remove_other "Default URI" "Name" d') by reflexivity.
    now rewrite Hsame. }
  assert (Hentries : group_entries d = group_entries d').
  { now rewrite <- !remove_reserved, Hsame. }
  rewrite !main_unfold, !parse_tests_dict, Hname, Hentries.
  destruct (dict_get "Name" d') as [name | ]; [ | reflexivity].
  destruct (parse_named (group_entries d') (dict_keys (group_entries d')))
    as [groups | e]; cbn [obind]; [ | reflexivity].
  rewrite !conduct_tests_unfold, !resolve_given. reflexivity.
Qed.

(** X10. What can leave the last line of the script, from the decoded
    document on (reading and decoding the file, the command line and the
    terminal are the environment's).  An exception of the parser
    ([AttributeError], [TypeError], [KeyError] on a required field) comes
    with an untouched world and an empty trace; otherwise the exception is
    one of the loops ([TypeError] or [OverflowError] of [+], or what
    [request] raised).  With a base URI from the command line, even an
    empty one, it is never the error of a missing base URI. *)
Theorem main_exceptions
    (v : pyval) (base_uri : string) (w w' : World) (e : pyexn)
    (tr : list event) :
  main v base_uri w = (Raise e, w', tr) ->
  e <> NoBaseUri
  /\ ((parser_exn e /\ w' = w /\ tr = []) \/ loop_exn e).
Proof.
  rewrite main_unfold. intros H.
  assert (Hkind : (parser_exn e /\ w' = w /\ tr = []) \/ loop_exn e).
  { destruct (parse_tests v) as [test | e0] eqn:Hparse.
    - right. rewrite conduct_tests_unfold, resolve_given in H.
      now apply run_groups_exn in H.
    - injection H as <- <- <-. left. split; [ | now split].
      unfold parser_exn.
      destruct (parse_tests_raises v e0 Hparse)
        as [(_ & ->) | (_ & [-> | Hkey])];
        [now left | right; now left | right; now right]. }
  split; [ | exact Hkind].
  intros ->.
  destruct Hkind as [([H0 | [H0 | (k & _ & H0)]] & _) | [H0 | [H0 | (i & H0)]]];
    discriminate.
Qed.

(** X11. A document that has ["Name"] and otherwise at most
    ["Default URI"] is a bundle without groups: the script ends normally
    without a line printed or a request sent. *)
Theorem no_groups_no_output (d : pydict) (base_uri : string) (w : World) :
  dict_mem "Name" d = true ->
  group_entries d = [] ->
  main (PDict d) base_uri w = (Ok tt, w, []).
Proof.
  unfold dict_mem. intros Hname Hnone.
  rewrite main_unfold, parse_tests_dict, Hnone.
  destruct (dict_get "Name" d) as [name | ]; [ | discriminate].
  reflexivity.
Qed.

(** X12. When exactly one of the base URI and the endpoint of a case is a
    string, the case raises [TypeError] when it is reached: its
    [Testing] line is printed, no request is sent, and the cases after it
    are not conducted. *)
Theorem mixed_types_stop_the_run
    (base_uri : pyval) (c : TestCase.t) (rest : list TestCase.t) (w : World) :
  xorb (is_str base_uri) (is_str (TestCase.endpoint c)) = true ->
  for_each (c :: rest) (run_case base_uri) w
  = (Raise TypeError, w, [testing_line c]).
Proof.
  intros Hmixed. rewrite for_each_cons, run_case_unfold.
  assert (Hadd : py_add base_uri (TestCase.endpoint c) = Raise TypeError).
  { destruct base_uri, (TestCase.endpoint c); try discriminate Hmixed;
      reflexivity. }
  now rewrite Hadd.
Qed.

(** X13. A case whose expected status is not a number (a string such as
    ["200"], [None], a list, an object), or whose expected output is
    neither [None] nor a string, cannot pass: whatever the base URI and
    the server, [conduct] never returns [True]. *)
Theorem ill_typed_expectation_never_passes
    (self : TestCase.t) (base_uri : pyval) (w : World) :
  no_number (TestCase.status self) = true
  \/ no_text (TestCase.output self) = true ->
  fst (fst (conduct self base_uri w)) <> Ok true.
Proof.
  intros Hill.
  destruct (py_add base_uri (TestCase.endpoint self)) as [url | e] eqn:Hurl.
  - rewrite (conduct_unfold _ _ _ _ Hurl).
    destruct (request w (TestCase.method self) url) as [[info | resp] w'];
      cbn [fst]; [discriminate | ].
    assert (Hfalse : expected_verdict self resp = false).
    { unfold expected_verdict. destruct Hill as [Hs | Ho].
      - destruct (TestCase.status self); try discriminate Hs; reflexivity.
      - destruct (TestCase.output self); try discriminate Ho;
          cbn [is_none str_eq orb]; apply andb_false_r. }
    rewrite Hfalse. discriminate.
  - rewrite (conduct_type_error _ _ _ _ Hurl). discriminate.
Qed.

(** X14. Running a bundle is running its first groups and then, from the
    world they leave, the others: result and world are those of the second
    part, the trace is the two traces one after the other; when the first
    part raises, the second is not run. *)
Theorem conduct_tests_splits
    (name : pyval) (variables : pydict) (default_uri : pyval)
    (first second : list TestGroup.t) (base_uri : pyval) (w : World) :
  conduct_tests (Test.mk name variables default_uri (first ++ second)) base_uri w
  = match conduct_tests (Test.mk name variables default_uri first) base_uri w with
    | (Ok _, w1, t1) =>
        match conduct_tests (Test.mk name variables default_uri second)
                base_uri w1 with
        | (r, w2, t2) => (r, w2, (t1 ++ t2)%list)
        end
    | (Raise e, w1, t1) => (Raise e, w1, t1)
    end.
Proof.
  rewrite (conduct_tests_unfold (Test.mk name variables default_uri (first ++ second))),
    (conduct_tests_unfold (Test.mk name variables default_uri first)).
  change (resolve_base_uri (Test.mk name variables default_uri (first ++ second))
            base_uri)
    with (resolve_base_uri (Test.mk name variables default_uri first) base_uri).
  destruct (resolve_base_uri (Test.mk name variables default_uri first) base_uri)
    as [u | e] eqn:Hres; [ | reflexivity].
  cbn [Test.test_groups]. rewrite for_each_app.
  destruct (for_each first (run_group u) w) as [[[[] | e] w1] t1];
    [ | reflexivity].
  rewrite conduct_tests_unfold.
  change (resolve_base_uri (Test.mk name variables default_uri second) base_uri)
    with (resolve_base_uri (Test.mk name variables default_uri first) base_uri).
  rewrite Hres. reflexivity.
Qed.

Lemma count_app (kind : event -> bool) (t1 t2 : list event) :
  count kind (t1 ++ t2) = (count kind t1 + count kind t2)%nat.
Proof. unfold count. now rewrite filter_app, length_app. Qed.

Lemma tally_next (r : outcome unit) (nr nv total : nat) :
  r <> Raise NoBaseUri ->
  tally r nr nv total -> tally r (S nr) (S nv) (S total).
Proof.
  destruct r as [[] | []]; cbn [tally]; intros Hr [H1 H2];
    try (now contradiction Hr); split; lia.
Qed.

Lemma tally_after (r : outcome unit) (n nr nv total : nat) :
  r <> Raise NoBaseUri ->
  tally r nr nv total -> tally r (n + nr) (n + nv) (n + total).
Proof.
  intros Hr. induction n as [| n IH]; intros H; [exact H | ].
  cbn [Nat.add]. now apply tally_next, IH.
Qed.

Lemma loop_exn_not_resolution (e : pyexn) : loop_exn e -> e <> NoBaseUri.
Proof. intros [H | [H | (info & H)]] ->; discriminate. Qed.

Lemma tally_more (e : pyexn) (nr nv total extra : nat) :
  tally (Raise e) nr nv total -> tally (Raise e) nr nv (total + extra).
Proof. destruct e; cbn [tally]; intros [H1 H2]; split; lia. Qed.

Lemma run_cases_tally (base_uri : pyval) (cases : list TestCase.t) :
  forall w : World,
    tally (fst (fst (for_each cases (run_case base_uri) w)))
      (count is_request (snd (for_each cases (run_case base_uri) w)))
      (count is_verdict (snd (for_each cases (run_case base_uri) w)))
      (List.length cases).
Proof.
  induction cases as [| c cases IH]; intros w.
  - cbn. split; reflexivity.
  - rewrite for_each_cons, run_case_unfold.
    destruct (py_add base_uri (TestCase.endpoint c)) as [url | e] eqn:Hurl.
    + destruct (request w (TestCase.method c) url) as [[info | resp] w1].
      * cbn. split; [reflexivity | lia].
      * specialize (IH w1).
        destruct (for_each cases (run_case base_uri) w1) as [[r w2] t2] eqn:Hrest.
        cbn [fst snd] in *.
        destruct (verdict_line_kind (c, resp)) as (Hv & _ & Hq).
        unfold count in *.
        cbn [app filter is_request is_verdict testing_line List.length].
        rewrite Hv, Hq. cbn [List.length]. apply tally_next; [ | exact IH].
        destruct r as [u | e]; [discriminate | ].
        intros Heq. injection Heq as ->.
        now apply run_cases_exn, loop_exn_not_resolution in Hrest.
    + destruct (py_add_exn _ _ _ Hurl) as [-> | ->]; cbn; split;
        reflexivity || lia.
Qed.

Lemma run_groups_tally (base_uri : pyval) (groups : list TestGroup.t) :
  forall w : World,
    tally (fst (fst (for_each groups (run_group base_uri) w)))
      (count is_request (snd (for_each groups (run_group base_uri) w)))
      (count is_verdict (snd (for_each groups (run_group base_uri) w)))
      (List.length (all_cases groups)).
Proof.
  induction groups as [| g groups IH]; intros w.
  - cbn. split; reflexivity.
  - rewrite for_each_cons, run_group_unfold.
    unfold all_cases. cbn [flat_map]. fold (all_cases groups).
    rewrite length_app.
    pose proof (run_cases_tally base_uri (TestGroup.test_cases g) w) as Hg.
    destruct (for_each (TestGroup.test_cases g) (run_case base_uri) w)
      as [[[[] | e] w1] t1]; cbn [fst snd] in *.
    + specialize (IH w1).
      destruct (for_each groups (run_group base_uri) w1) as [[r w2] t2] eqn:Hrest.
      cbn [fst snd] in *. destruct Hg as (Hq & Hv).
      change ((header_line g :: t1) ++ t2)%list
        with ([header_line g] ++ t1 ++ t2)%list.
      rewrite !count_app, Hq, Hv.
      change (count is_request [header_line g]) with 0%nat.
      change (count is_verdict [header_line g]) with 0%nat.
      cbn [Nat.add]. apply tally_after; [ | exact IH].
      destruct r as [u | e]; [discriminate | ].
      intros Heq. injection Heq as ->.
      now apply run_groups_exn, loop_exn_not_resolution in Hrest.
    + change (header_line g :: t1) with ([header_line g] ++ t1)%list.
      rewrite !count_app.
      change (count is_request [header_line g]) with 0%nat.
      change (count is_verdict [header_line g]) with 0%nat.
      cbn [Nat.add]. now apply tally_more.
Qed.

(** X15. Requests and verdicts of any run, by the way it ends.  Normal
    end: one request and one verdict for every case of the bundle.  An
    exception of [request]: one request more than verdicts, and no more
    requests than cases.  No base URI: nothing at all.  Any other
    exception: as many requests as verdicts, fewer than there are cases.
    So a case is never requested twice, and no verdict is printed without
    its request. *)
Theorem requests_and_verdicts (test : Test.t) (base_uri : pyval) (w : World) :
  tally (fst (fst (conduct_tests test base_uri w)))
    (count is_request (snd (conduct_tests test base_uri w)))
    (count is_verdict (snd (conduct_tests test base_uri w)))
    (List.length (all_cases (Test.test_groups test))).
Proof.
  rewrite conduct_tests_unfold.
  destruct (resolve_base_uri test base_uri) as [u | e] eqn:Hres.
  - apply run_groups_tally.
  - assert (e = NoBaseUri) as ->.
    { unfold resolve_base_uri in Hres.
      destruct (is_none base_uri); [ | discriminate].
      destruct (is_none (Test.default_uri test)); [ | discriminate].
      now injection Hres. }
    cbn. split; reflexivity.
Qed.

Lemma run_cases_no_header (base_uri : pyval) (cases : list TestCase.t) :
  forall w : World,
    filter no_header (snd (for_each cases (run_case base_uri) w))
    = snd (for_each cases (run_case base_uri) w).
Proof.
  induction cases as [| c cases IH]; intros w; [reflexivity | ].
  rewrite for_each_cons, run_case_unfold.
  destruct (py_add base_uri (TestCase.endpoint c)) as [url | e];
    [ | reflexivity].
  destruct (request w (TestCase.method c) url) as [[info | resp] w1];
    [reflexivity | ].
  specialize (IH w1).
  destruct (for_each cases (run_case base_uri) w1) as [[r w2] t2].
  cbn [fst snd app] in *.
  assert (Hv : no_header (verdict_line (c, resp)) = true).
  { unfold verdict_line, result_line. cbn [fst snd].
    destruct (expected_verdict c resp); reflexivity. }
  cbn [filter no_header is_header testing_line negb]. now rewrite Hv, IH.
Qed.

(** Up to the header lines, a run over groups is the run over their cases
    put in one list. *)
Lemma run_groups_flat (base_uri : pyval) (groups : list TestGroup.t) :
  forall w : World,
    fst (for_each groups (run_group base_uri) w)
    = fst (for_each (all_cases groups) (run_case base_uri) w)
    /\ filter no_header (snd (for_each groups (run_group base_uri) w))
       = snd (for_each (all_cases groups) (run_case base_uri) w).
Proof.
  induction groups as [| g groups IH]; intros w; [split; reflexivity | ].
  unfold all_cases. cbn [flat_map]. fold (all_cases groups).
  rewrite for_each_cons, run_group_unfold, for_each_app.
  pose proof (run_cases_no_header base_uri (TestGroup.test_cases g) w) as Hg.
  destruct (for_each (TestGroup.test_cases g) (run_case base_uri) w)
    as [[[[] | e] w1] t1]; cbn [fst snd] in *.
  - destruct (IH w1) as (Hfst & Hsnd).
    destruct (for_each groups (run_group base_uri) w1) as [[r w2] t2].
    destruct (for_each (all_cases groups) (run_case base_uri) w1)
      as [[r' w2'] t2'].
    cbn [fst snd] in *. injection Hfst as <- <-. split; [reflexivity | ].
    change ((header_line g :: t1) ++ t2)%list
      with (header_line g :: (t1 ++ t2))%list.
    cbn [filter no_header is_header header_line negb].
    now rewrite filter_app, Hg, Hsnd.
  - split; [reflexivity | ].
    cbn [filter no_header is_header header_line negb]. exact Hg.
Qed.

(** X17. How the cases are spread over groups changes the header lines and
    nothing else: two bundles with the same default URI and the same cases
    in the same order, grouped differently, end alike, leave the same
    world, and have the same trace once the headers are taken out. *)
Theorem grouping_does_not_matter
    (test1 test2 : Test.t) (base_uri : pyval) (w : World) :
  Test.default_uri test1 = Test.default_uri test2 ->
  all_cases (Test.test_groups test1) = all_cases (Test.test_groups test2) ->
  fst (conduct_tests test1 base_uri w) = fst (conduct_tests test2 base_uri w)
  /\ filter no_header (snd (conduct_tests test1 base_uri w))
     = filter no_header (snd (conduct_tests test2 base_uri w)).
Proof.
  intros Hdefault Hcases. rewrite !conduct_tests_unfold.
  unfold resolve_base_uri. rewrite Hdefault.
  destruct (if is_none base_uri
            then if is_none (Test.default_uri test2)
                 then Raise NoBaseUri else Ok (Test.default_uri test2)
            else Ok base_uri) as [u | e]; [ | split; reflexivity].
  destruct (run_groups_flat u (Test.test_groups test1) w) as (H1 & H1').
  destruct (run_groups_flat u (Test.test_groups test2) w) as (H2 & H2').
  rewrite H1, H2, H1', H2', Hcases. split; reflexivity.
Qed.

Lemma filter_no_header (kind : event -> bool) (tr : list event) :
  (forall ev, kind ev = true -> no_header ev = true) ->
  filter kind (filter no_header tr) = filter kind tr.
Proof.
  intros Hkind. induction tr as [| ev tr IH]; [reflexivity | ].
  cbn [filter]. destruct (no_header ev) eqn:Hh; cbn [filter].
  - now rewrite IH.
  - destruct (kind ev) eqn:Hk; [ | exact IH].
    rewrite (Hkind ev Hk) in Hh. discriminate.
Qed.

(** X18. When [request] raises on a case, after the cases before it were
    answered, the run ends with that exception: the requests sent are
    those of the cases before and of the failing case, the verdicts
    printed are those of the cases before, and the cases after are not
    touched. *)
Theorem network_error_stops_the_run
    (test : Test.t) (base_uri : pyval) (b e info : string)
    (before after : list TestCase.t) (c : TestCase.t)
    (reqs : list (pyval * pyval)) (rs : list Response) (w w1 w2 : World) :
  resolve_base_uri test base_uri = Ok (PStr b) ->
  all_cases (Test.test_groups test) = (before ++ c :: after)%list ->
  Forall2 (planned b) before reqs ->
  serve w reqs = Some (rs, w1) ->
  TestCase.endpoint c = PStr e ->
  request w1 (TestCase.method c) (PStr (b ++ e)) = (inl info, w2) ->
  exists tr,
    conduct_tests test base_uri w = (Raise (RequestRaised info), w2, tr)
    /\ filter is_request tr
       = (map request_event reqs
          ++ [Request (TestCase.method c) (PStr (b ++ e))])%list
    /\ filter is_verdict tr = map verdict_line (combine before rs).
Proof.
  intros Hres Hcases Hplan Hserve He Hreq.
  rewrite conduct_tests_unfold, Hres.
  destruct (run_groups_flat (PStr b) (Test.test_groups test) w) as (Hfst & Hsnd).
  rewrite Hcases, for_each_app in Hfst, Hsnd.
  destruct (run_cases_answered _ _ _ _ _ _ Hplan Hserve)
    as (tr1 & Hrun1 & Hreq1 & Hverd1 & _).
  rewrite Hrun1, for_each_cons, run_case_unfold, He in Hfst, Hsnd.
  cbn [py_add] in Hfst, Hsnd. rewrite Hreq in Hfst, Hsnd.
  destruct (for_each (Test.test_groups test) (run_group (PStr b)) w)
    as [[r w'] tr].
  cbn [fst snd] in *. injection Hfst as -> ->.
  exists tr. split; [reflexivity | ]. split.
  - rewrite <- (filter_no_header is_request tr), Hsnd, filter_app, Hreq1.
    + reflexivity.
    + intros [line [] end_ | m u]; cbn; congruence.
  - rewrite <- (filter_no_header is_verdict tr), Hsnd, filter_app, Hverd1.
    + cbn [filter is_verdict testing_line]. now rewrite app_nil_r.
    + intros [line [] end_ | m u]; cbn; congruence.
Qed.

Lemma parse_named_app (d : pydict) (names1 names2 : list string) :
  parse_named d (names1 ++ names2)
  = (let? groups1 := parse_named d names1 in
     let? groups2 := parse_named d names2 in
     Ok (groups1 ++ groups2)%list).
Proof.
  induction names1 as [| k names1 IH]; cbn [app parse_named].
  - cbn [obind]. now destruct (parse_named d names2).
  - destruct (dict_getitem k d) as [v | e]; cbn [obind]; [ | reflexivity].
    destruct (parse_test_cases v) as [cases | e]; cbn [obind]; [ | reflexivity].
    rewrite IH.
    destruct (parse_named d names1) as [groups1 | e]; cbn [obind];
      [ | reflexivity].
    now destruct (parse_named d names2).
Qed.

Lemma parse_named_all_ok (d es : pydict) :
  (forall k v, In (k, v) es -> dict_get k d = Some v) ->
  Forall (fun kv => exists cases, parse_test_cases (snd kv) = Ok cases) es ->
  exists groups, parse_named d (map fst es) = Ok groups.
Proof.
  intros Hget Hall. induction Hall as [| [k v] es (cases & Hcases) _ IH].
  - now exists [].
  - cbn [map fst parse_named]. unfold dict_getitem.
    rewrite (Hget k v (or_introl eq_refl)). cbn [obind snd] in *.
    rewrite Hcases. cbn [obind].
    destruct IH as (groups & ->).
    + intros k1 v1 Hin. apply Hget. now right.
    + eexists. reflexivity.
Qed.

(** X19. The parser stops at the first group, in document order, whose
    value does not parse: when the groups before it parse, the exception
    of that group is the exception of [parse_tests], whatever the groups
    after it hold. *)
Theorem first_faulty_group_decides
    (d before after : pydict) (k : string) (v : pyval) (e : pyexn) :
  dict_wf d ->
  dict_mem "Name" d = true ->
  group_entries d = (before ++ (k, v) :: after)%list ->
  Forall (fun kv => exists cases, parse_test_cases (snd kv) = Ok cases) before ->
  parse_test_cases v = Raise e ->
  parse_tests (PDict d) = Raise e.
Proof.
  unfold dict_mem. intros Hwf Hname Hentries Hbefore Hv.
  rewrite parse_tests_dict.
  destruct (dict_get "Name" d) as [name | ]; [ | discriminate].
  assert (Hget : forall k1 v1,
            In (k1, v1) (group_entries d) ->
            dict_get k1 (group_entries d) = Some v1).
  { intros k1 v1 Hin. apply dict_get_in; [now apply group_entries_wf | exact Hin]. }
  unfold dict_keys. rewrite Hentries in *. rewrite map_app, parse_named_app.
  destruct (parse_named_all_ok (before ++ (k, v) :: after)%list before)
    as (groups & ->); [ | exact Hbefore | ].
  - intros k1 v1 Hin. apply Hget, in_or_app. now left.
  - cbn [obind map fst parse_named]. unfold dict_getitem.
    rewrite (Hget k v) by (apply in_or_app; right; now left).
    cbn [obind]. now rewrite Hv.
Qed.

Lemma append_same (s extra : string) : s ++ extra = s -> extra = "".
Proof.
  induction s as [| a s IH]; cbn [append]; [trivial | ].
  intros H. injection H as H. now apply IH.
Qed.

(** X20. The body is compared as a whole: a response whose body only
    starts with the expected output, or whose body is only the beginning
    of the expected output, fails the case, even with the right status
    code. *)
Theorem partial_body_fails
    (self : TestCase.t) (base_uri url : pyval) (w w' : World)
    (resp : Response) (expected extra : string) :
  TestCase.output self = PStr expected ->
  extra <> "" ->
  text resp = expected ++ extra \/ expected = text resp ++ extra ->
  py_add base_uri (TestCase.endpoint self) = Ok url ->
  request w (TestCase.method self) url = (inr resp, w') ->
  conduct self base_uri w
  = (Ok false, w', [Request (TestCase.method self) url]).
Proof.
  intros Hout Hextra Hpart Hurl Hreq.
  rewrite (conduct_unfold _ _ _ _ Hurl), Hreq.
  assert (Hfalse : expected_verdict self resp = false).
  { unfold expected_verdict. rewrite Hout. cbn [is_none str_eq orb].
    assert (Hneq : String.eqb (text resp) expected = false).
    { apply String.eqb_neq. intros Heq.
      destruct Hpart as [Hp | Hp]; rewrite Heq in Hp.
      - symmetry in Hp. now apply append_same in Hp.
      - symmetry in Hp. now apply append_same in Hp. }
    rewrite Hneq. apply andb_false_r. }
  now rewrite Hfalse.
Qed.

(** ** The order of the report *)

Lemma announced_upto_cases (cases : list TestCase.t) (l : list event) :
  forall n,
    (n <= List.length cases)%nat ->
    announced_upto n (map testing_line cases ++ l)
    = map testing_line (firstn n cases).
Proof.
  induction cases as [| c cases IH]; intros n Hn.
  - assert (n = 0%nat) as -> by (cbn in Hn; lia).
    cbn [map app firstn]. now destruct l.
  - destruct n as [| n]; [reflexivity | ].
    cbn [map app firstn announced_upto testing_line is_testing].
    f_equal. apply IH. cbn in Hn. lia.
Qed.

Lemma announced_upto_all (cases : list TestCase.t) (l : list event) (n : nat) :
  announced_upto (List.length cases + S n) (map testing_line cases ++ l)
  = (map testing_line cases ++ announced_upto (S n) l)%list.
Proof.
  induction cases as [| c cases IH]; [reflexivity | ].
  cbn [List.length Nat.add map app announced_upto testing_line is_testing].
  f_equal. exact IH.
Qed.

(** What the inner loop has announced when it ends: every case, or the
    cases up to the one on which it raised. *)
Lemma run_cases_report (base_uri : pyval) (cases : list TestCase.t) :
  forall w : World,
    match fst (fst (for_each cases (run_case base_uri) w)) with
    | Ok _ =>
        filter is_announcement (snd (for_each cases (run_case base_uri) w))
        = map testing_line cases
        /\ count is_verdict (snd (for_each cases (run_case base_uri) w))
           = List.length cases
    | Raise _ =>
        filter is_announcement (snd (for_each cases (run_case base_uri) w))
        = map testing_line
            (firstn
               (S (count is_verdict
                     (snd (for_each cases (run_case base_uri) w))))
               cases)
        /\ (count is_verdict (snd (for_each cases (run_case base_uri) w))
            < List.length cases)%nat
    end.
Proof.
  induction cases as [| c cases IH]; intros w.
  - split; reflexivity.
  - rewrite for_each_cons, run_case_unfold.
    destruct (py_add base_uri (TestCase.endpoint c)) as [url | e].
    + destruct (request w (TestCase.method c) url) as [[info | resp] w1].
      * cbn. split; [reflexivity | lia].
      * specialize (IH w1).
        destruct (for_each cases (run_case base_uri) w1) as [[r w2] t2].
        cbn [fst snd] in *.
        destruct (verdict_line_kind (c, resp)) as (Hv & Ha & _).
        unfold count in *.
        cbn [app filter is_announcement is_verdict testing_line].
        rewrite Hv, Ha. cbn [List.length].
        destruct r as [u | e]; destruct IH as (IH1 & IH2); split.
        -- now rewrite IH1.
        -- now rewrite IH2.
        -- cbn [firstn map]. now rewrite IH1.
        -- lia.
    + cbn. split; [reflexivity | lia].
Qed.

(** The same for the outer loop. *)
Lemma run_groups_report (base_uri : pyval) (groups : list TestGroup.t) :
  forall w : World,
    match fst (fst (for_each groups (run_group base_uri) w)) with
    | Ok _ =>
        filter is_announcement (snd (for_each groups (run_group base_uri) w))
        = announced groups
        /\ count is_verdict (snd (for_each groups (run_group base_uri) w))
           = List.length (all_cases groups)
    | Raise _ =>
        filter is_announcement (snd (for_each groups (run_group base_uri) w))
        = announced_upto
            (S (count is_verdict
                  (snd (for_each groups (run_group base_uri) w))))
            (announced groups)
        /\ (count is_verdict (snd (for_each groups (run_group base_uri) w))
            < List.length (all_cases groups))%nat
    end.
Proof.
  induction groups as [| g groups IH]; intros w.
  - split; reflexivity.
  - rewrite for_each_cons, run_group_unfold.
    unfold all_cases, announced. cbn [flat_map].
    fold (all_cases groups). fold (announced groups).
    rewrite length_app.
    pose proof (run_cases_report base_uri (TestGroup.test_cases g) w) as Hg.
    destruct (for_each (TestGroup.test_cases g) (run_case base_uri) w)
      as [[[[] | e] w1] t1]; cbn [fst snd] in *.
    + destruct Hg as (Hg1 & Hg2). specialize (IH w1).
      destruct (for_each groups (run_group base_uri) w1) as [[r w2] t2].
      cbn [fst snd] in *.
      change ((header_line g :: t1) ++ t2)%list
        with ([header_line g] ++ t1 ++ t2)%list.
      rewrite !count_app, !filter_app, Hg1, Hg2.
      change (count is_verdict [header_line g]) with 0%nat.
      change (filter is_announcement [header_line g]) with [header_line g].
      cbn [Nat.add app].
      destruct r as [u | e]; destruct IH as (IH1 & IH2); split.
      * now rewrite IH1.
      * now rewrite IH2.
      * rewrite IH1.
        replace (S (List.length (TestGroup.test_cases g) + count is_verdict t2))
          with (List.length (TestGroup.test_cases g) + S (count is_verdict t2))%nat
          by lia.
        destruct (List.length (TestGroup.test_cases g)
                  + S (count is_verdict t2))%nat as [| k] eqn:Hk; [lia | ].
        cbn [announced_upto header_line is_testing]. f_equal.
        rewrite <- Hk. symmetry. apply announced_upto_all.
      * lia.
    + destruct Hg as (Hg1 & Hg2).
      change (header_line g :: t1) with ([header_line g] ++ t1)%list.
      rewrite count_app, filter_app, Hg1.
      change (count is_verdict [header_line g]) with 0%nat.
      change (filter is_announcement [header_line g]) with [header_line g].
      cbn [Nat.add app announced_upto header_line is_testing]. split; [ | lia].
      f_equal. symmetry. apply announced_upto_cases. lia.
Qed.

(** C5. For a document that parses, the groups of the bundle are the keys
    of the document other than ["Name"] and ["Default URI"], each of them,
    in the order of the document, and the cases of a group are the
    elements of its array, in the order of the array.  A run that finds a
    base URI reports in the order in which the bundle stores groups and
    cases: when it ends normally it has announced every group and every
    case and printed a verdict for every case, in that order; when it
    raises, it has announced exactly the groups and cases up to the case
    on which it raised, and printed the verdicts of the cases before that
    one.  When the base URI and the endpoints are strings and the server
    answers, the run does end normally, with the verdict of each case in
    its place. *)
Theorem order_is_preserved (d : pydict) (test : Test.t) :
  dict_wf d ->
  parse_tests (PDict d) = Ok test ->
  map TestGroup.name (Test.test_groups test)
  = filter (fun k => negb (reserved k)) (dict_keys d)
  /\ Forall2 group_of_entry (Test.test_groups test) (group_entries d)
  /\ Forall2
       (fun g kv =>
          forall items, snd kv = PList items ->
            Forall2 (fun e c => parse_test_case e = Ok c)
              items (TestGroup.test_cases g))
       (Test.test_groups test) (group_entries d)
  /\ (forall (base_uri u : pyval) (w : World),
        resolve_base_uri test base_uri = Ok u ->
        (exists results : list bool,
           filter is_verdict (snd (conduct_tests test base_uri w))
           = map result_line
               (combine (all_cases (Test.test_groups test)) results)
           /\ List.length results
              = count is_verdict (snd (conduct_tests test base_uri w)))
        /\ match fst (fst (conduct_tests test base_uri w)) with
           | Ok _ =>
               filter is_announcement (snd (conduct_tests test base_uri w))
               = announced (Test.test_groups test)
               /\ count is_verdict (snd (conduct_tests test base_uri w))
                  = List.length (all_cases (Test.test_groups test))
           | Raise _ =>
               filter is_announcement (snd (conduct_tests test base_uri w))
               = announced_upto
                   (S (count is_verdict
                         (snd (conduct_tests test base_uri w))))
                   (announced (Test.test_groups test))
               /\ (count is_verdict (snd (conduct_tests test base_uri w))
                   < List.length (all_cases (Test.test_groups test)))%nat
           end)
  /\ (forall (base_uri : pyval) (b : string) (reqs : list (pyval * pyval))
             (rs : list Response) (w w' : World),
        resolve_base_uri test base_uri = Ok (PStr b) ->
        Forall2 (planned b) (all_cases (Test.test_groups test)) reqs ->
        serve w reqs = Some (rs, w') ->
        exists tr,
          conduct_tests test base_uri w = (Ok tt, w', tr)
          /\ filter is_announcement tr = announced (Test.test_groups test)
          /\ filter is_verdict tr
             = map verdict_line
                 (combine (all_cases (Test.test_groups test)) rs)).
Proof.
  intros Hwf Hparse.
  destruct (parse_tests_ok _ _ Hparse) as (name & _ & Hnamed & _).
  apply parse_named_ok in Hnamed.
  assert (Hentries : Forall2 group_of_entry (Test.test_groups test)
                       (group_entries d)).
  { apply groups_of_entries with (d := group_entries d); [ | exact Hnamed].
    intros k v Hin. apply dict_get_in; [ | exact Hin].
    now apply group_entries_wf. }
  split; [ | split; [exact Hentries | split; [ | split]]].
  - rewrite <- keys_of_group_entries. unfold dict_keys.
    clear - Hentries.
    induction Hentries as [| g kv gs es (Hname & _) _ IH]; [reflexivity | ].
    cbn [map]. now rewrite Hname, IH.
  - clear - Hentries.
    induction Hentries as [| g kv gs es (_ & elements & Hiter & Hcases) _ IH];
      constructor; [ | exact IH].
    intros items Hkv. rewrite Hkv in Hiter. cbn [py_iter] in Hiter.
    now injection Hiter as ->.
  - intros base_uri u w Hres. rewrite conduct_tests_unfold, Hres. split.
    + destruct (run_groups_verdicts u (Test.test_groups test) w)
        as (results & Hverd & Hle & _).
      exists results. split; [exact Hverd | ].
      unfold count. rewrite Hverd, length_map, length_combine.
      symmetry. now apply Nat.min_r.
    + apply run_groups_report.
  - intros base_uri b reqs rs w w' Hres Hplan Hserve.
    rewrite conduct_tests_unfold, Hres.
    destruct (run_groups_answered _ _ _ _ _ _ Hplan Hserve)
      as (tr & Hrun & _ & Hverd & _).
    exists tr. split; [exact Hrun | split; [ | exact Hverd]].
    destruct (run_groups_announced (PStr b) (Test.test_groups test) w)
      as (rest & Hrest & Hok).
    rewrite Hrun in Hrest, Hok. cbn [fst snd] in *.
    rewrite (Hok eq_refl), app_nil_r in Hrest. now symmetry.
Qed.



End Executor.

(** ** The model at work

    The bundle [demo_doc] against [demo_request]: the first case passes,
    the second fails on a trailing blank of the body, the empty group only
    has its header. *)

Example demo_doc_parses : parse_tests (PDict demo_doc) = Ok demo_test.
Proof. reflexivity. Qed.

Example demo_run :
  conduct_tests nat demo_request demo_str demo_test PNone 0%nat
  = (Ok tt, 2%nat,
     [Cprint "Group" blue LF;
      Cprint (TAB ++ "c1 Testing") grey "";
      Request (PStr "GET") (PStr "http://x/a");
      Cprint (CR ++ TAB ++ "c1 Passed!") green LF;
      Cprint (TAB ++ "c2 Testing") grey "";
      Request (PStr "GET") (PStr "http://x/b");
      Cprint (CR ++ TAB ++ "c2 Failed!") red LF;
      Cprint "Empty" blue LF]).
Proof. reflexivity. Qed.

Example float_status_matches :
  int_eq 200 (PFloat (S754_finite false 7036874417766400 (-45))) = true.
Proof. reflexivity. Qed.

Lemma demo_doc_wf : dict_wf demo_doc.
Proof.
  unfold dict_wf, demo_doc. cbn [map fst].
  repeat constructor; cbn [In]; intuition discriminate.
Qed.

Lemma demo_doc_without_name_wf : dict_wf (dict_remove "Name" demo_doc).
Proof.
  unfold dict_wf.
  change (map fst (dict_remove "Name" demo_doc))
    with ["Default URI"; "Group"; "Empty"].
  repeat constructor; cbn [In]; intuition discriminate.
Qed.


(** ** The theorems on the demo bundle *)

Lemma conduct_with_output_demo :
  (TestCase.status demo_c2 = PInt 200 /\ TestCase.output demo_c2 <> PNone)
  /\ exists result : bool,
       conduct nat demo_request demo_c2 (PStr "http://x") 0%nat
       = (Ok result, 1%nat, [Request (PStr "GET") (PStr "http://x/b")])
       /\ (result = true <-> 200 = 200 /\ PStr "ok " = PStr "ok")
       /\ (result = false <-> 200 <> 200 \/ PStr "ok " <> PStr "ok").
Proof.
  split; [split; [reflexivity | discriminate] | ].
  apply (conduct_with_output nat demo_request demo_c2
           (PStr "http://x") (PStr "http://x/b") 0%nat 1%nat
           (mkResponse 200 "ok ") 200);
    [reflexivity | discriminate | reflexivity | reflexivity].
Defined.

Lemma conduct_without_output_demo :
  (TestCase.status demo_c1 = PInt 200 /\ TestCase.output demo_c1 = PNone)
  /\ exists result : bool,
       conduct nat demo_request demo_c1 (PStr "http://x") 0%nat
       = (Ok result, 1%nat, [Request (PStr "GET") (PStr "http://x/a")])
       /\ (result = true <-> 200 = 200)
       /\ (forall (v v' : nat) (other : Response),
             demo_request v (PStr "GET") (PStr "http://x/a") = (inr other, v') ->
             status_code other = 200 ->
             fst (fst (conduct nat demo_request demo_c1
                         (PStr "http://x") v)) = Ok result).
Proof.
  split; [split; reflexivity | ].
  apply (conduct_without_output nat demo_request demo_c1
           (PStr "http://x") (PStr "http://x/a") 0%nat 1%nat
           (mkResponse 200 "ok") 200); reflexivity.
Defined.

Lemma conduct_url_is_concatenation_demo :
  TestCase.endpoint demo_c1 = PStr "/a"
  /\ snd (conduct nat demo_request demo_c1 (PStr "http://x") 0%nat)
     = [Request (PStr "GET") (PStr "http://x/a")]
  /\ snd (fst (conduct nat demo_request demo_c1 (PStr "http://x") 0%nat))
     = 1%nat.
Proof.
  split; [reflexivity | ].
  apply (conduct_url_is_concatenation nat demo_request demo_c1
           "http://x" "/a" 0%nat); reflexivity.
Defined.

Lemma override_takes_precedence_demo :
  (PStr "http://y" <> PNone
   /\ resolve_base_uri demo_test (PStr "http://y") = Ok (PStr "http://y"))
  /\ (Test.default_uri demo_test <> PNone
      /\ resolve_base_uri demo_test PNone = Ok (PStr "http://x")).
Proof.
  split; split; try discriminate.
  - apply (proj1 (override_takes_precedence nat demo_request demo_str
                    demo_test (PStr "http://y") 0%nat)); discriminate.
  - apply (proj2 (override_takes_precedence nat demo_request demo_str
                    demo_test PNone 0%nat)); [reflexivity | discriminate].
Defined.

Lemma no_base_uri_demo :
  conduct_tests nat demo_request demo_str
    (Test.mk (PStr "S") [] PNone (Test.test_groups demo_test)) PNone 0%nat
  = (Raise NoBaseUri, 0%nat, [])
  /\ exists u,
       resolve_base_uri demo_test PNone = Ok u
       /\ conduct_tests nat demo_request demo_str demo_test PNone 0%nat
          = for_each nat (Test.test_groups demo_test)
              (run_group nat demo_request demo_str u) 0%nat
       /\ fst (fst (conduct_tests nat demo_request demo_str demo_test PNone 0%nat))
          <> Raise NoBaseUri.
Proof.
  split.
  - apply (proj1 (no_base_uri_fails_before_any_request nat demo_request demo_str
                    (Test.mk (PStr "S") [] PNone (Test.test_groups demo_test))
                    PNone 0%nat)); reflexivity.
  - apply (proj2 (no_base_uri_fails_before_any_request nat demo_request demo_str
                    demo_test PNone 0%nat)).
    right. discriminate.
Defined.

Lemma failed_cases_do_not_stop_the_run_demo :
  exists tr,
    conduct_tests nat demo_request demo_str demo_test PNone 0%nat
    = (Ok tt, 2%nat, tr)
    /\ filter is_request tr
       = [Request (PStr "GET") (PStr "http://x/a");
          Request (PStr "GET") (PStr "http://x/b")]
    /\ filter is_verdict tr
       = [passed_line demo_str demo_c1; failed_line demo_str demo_c2]
    /\ 2%nat = 2%nat
    /\ filter is_announcement tr
       = announced demo_str (Test.test_groups demo_test).
Proof.
  apply (failed_cases_do_not_stop_the_run nat demo_request demo_str
           demo_test PNone "http://x"
           [(PStr "GET", PStr "http://x/a"); (PStr "GET", PStr "http://x/b")]
           [mkResponse 200 "ok"; mkResponse 200 "ok "] 0%nat 2%nat).
  - reflexivity.
  - repeat constructor; eexists; split; reflexivity.
  - reflexivity.
Defined.

Lemma empty_group_demo :
  run_group nat demo_request demo_str (PStr "http://x")
    (TestGroup.mk "Empty" []) 5%nat
  = (Ok tt, 5%nat, [Cprint "Empty" blue LF])
  /\ for_each nat
       ([TestGroup.mk "Group" [demo_c1]] ++ TestGroup.mk "Empty" [] :: [])%list
       (run_group nat demo_request demo_str (PStr "http://x")) 0%nat
     = (Ok tt, 1%nat,
        [Cprint "Group" blue LF;
         Cprint (TAB ++ "c1 Testing") grey "";
         Request (PStr "GET") (PStr "http://x/a");
         Cprint (CR ++ TAB ++ "c1 Passed!") green LF;
         Cprint "Empty" blue LF]).
Proof.
  split.
  - apply (proj1 (empty_group_prints_its_name nat demo_request demo_str
                    (PStr "http://x") (TestGroup.mk "Empty" []) [] []
                    5%nat 5%nat [] eq_refl)).
  - apply (proj2 (empty_group_prints_its_name nat demo_request demo_str
                    (PStr "http://x") (TestGroup.mk "Empty" [])
                    [TestGroup.mk "Group" [demo_c1]] []
                    0%nat 1%nat
                    [Cprint "Group" blue LF;
                     Cprint (TAB ++ "c1 Testing") grey "";
                     Request (PStr "GET") (PStr "http://x/a");
                     Cprint (CR ++ TAB ++ "c1 Passed!") green LF]
                    eq_refl)).
    reflexivity.
Defined.

Lemma parse_test_groups_demo :
  snd (parse_test_groups demo_doc)
  = [("Group", PList [PDict case_c1; PDict case_c2]); ("Empty", PList [])]
  /\ py_get (PDict demo_doc) "Default URI" = Ok (PStr "http://x")
  /\ py_get (PDict (snd (parse_test_groups demo_doc))) "Default URI" = Ok PNone
  /\ parse_test_groups (snd (parse_test_groups demo_doc))
     = (Raise (KeyError "Name"), snd (parse_test_groups demo_doc)).
Proof.
  destruct (parse_test_groups_deletes_reserved_keys demo_doc)
    as (Hstate & _ & _ & _ & Hafter & Hbefore & Hagain).
  split; [exact Hstate | ].
  split; [exact (Hbefore demo_test eq_refl) | ].
  split; [exact Hafter | exact Hagain].
Defined.

(** C3, as stated, fails on the empty string: it is an override that is not
    [None], so the run uses it and not the default of the bundle, where the
    rule as stated would use the default. *)
Lemma empty_override_is_used :
  provided (PStr "") = false
  /\ effective_uri_as_stated demo_test (PStr "") = PStr "http://x"
  /\ resolve_base_uri demo_test (PStr "")
     <> Ok (effective_uri_as_stated demo_test (PStr ""))
  /\ filter is_request
       (snd (conduct_tests nat demo_request demo_str demo_test (PStr "") 0%nat))
     = [Request (PStr "GET") (PStr "/a")].
Proof.
  repeat split; try reflexivity. discriminate.
Qed.

(** ** The further facts on the demo bundle *)

Lemma group_value_not_an_array_demo :
  parse_test_cases (PStr "") = Ok []
  /\ parse_test_cases (PStr "abc") = Raise TypeError
  /\ parse_test_cases (PDict [("k", PInt 1)]) = Raise TypeError.
Proof.
  split; [ | split].
  - apply (proj1 (group_value_not_an_array (PStr "")
                    ltac:(intros items; discriminate))).
    now left.
  - apply (proj2 (group_value_not_an_array (PStr "abc")
                    ltac:(intros items; discriminate))); discriminate.
  - apply (proj2 (group_value_not_an_array (PDict [("k", PInt 1)])
                    ltac:(intros items; discriminate))); discriminate.
Defined.

Lemma parse_test_case_reads_five_keys_demo :
  parse_test_case (PDict (("Comment", PStr "first") :: case_c1))
  = parse_test_case (PDict case_c1).
Proof.
  apply (parse_test_case_reads_five_keys (("Comment", PStr "first") :: case_c1)
           case_c1).
  intros k Hk. unfold case_keys, required_fields in Hk. cbn [app In] in Hk.
  destruct Hk as [<- | [<- | [<- | [<- | [<- | []]]]]]; reflexivity.
Defined.

Lemma parse_tests_exceptions_demo :
  parse_tests (PList [PDict demo_doc]) = Raise AttributeError
  /\ (parser_exn (KeyError "Endpoint")
      /\ (KeyError "Endpoint" = AttributeError <->
          forall d, PDict incomplete_doc <> PDict d)).
Proof.
  split.
  - apply (proj1 (parse_tests_exceptions (PList [PDict demo_doc]))).
    intros d. discriminate.
  - exact (proj2 (parse_tests_exceptions (PDict incomplete_doc))
             (KeyError "Endpoint") eq_refl).
Defined.

Lemma parse_test_groups_without_name_demo :
  parse_test_groups [("Default URI", PStr "http://x"); ("Group", PList [])]
  = (Raise (KeyError "Name"), [("Group", PList [])]).
Proof.
  exact (parse_test_groups_without_name
           [("Default URI", PStr "http://x"); ("Group", PList [])] eq_refl).
Defined.

Lemma group_names_distinct_demo :
  NoDup (map TestGroup.name (Test.test_groups demo_test))
  /\ Forall (fun g => reserved (TestGroup.name g) = false
                      /\ In (TestGroup.name g) (dict_keys demo_doc))
       (Test.test_groups demo_test).
Proof.
  exact (group_names_distinct demo_doc demo_test demo_doc_wf eq_refl).
Defined.

Lemma null_default_uri_demo :
  conduct_tests nat demo_request demo_str (Test.mk (PStr "S") [] PNone [])
    PNone 0%nat
  = (Raise NoBaseUri, 0%nat, []).
Proof.
  apply (null_default_uri_is_no_default nat demo_request demo_str
           [("Name", PStr "S"); ("Default URI", PNone)]
           (Test.mk (PStr "S") [] PNone []) 0%nat eq_refl).
  now right.
Defined.

Lemma null_output_demo :
  conduct nat demo_request demo_c1 (PStr "http://x") 0%nat
  = (Ok (200 =? 200), 1%nat, [Request (PStr "GET") (PStr "http://x/a")]).
Proof.
  apply (null_output_checks_status_only nat demo_request case_c1 demo_c1 200
           (PStr "http://x") (PStr "http://x/a") 0%nat 1%nat
           (mkResponse 200 "ok") eq_refl eq_refl (or_introl eq_refl)
           eq_refl eq_refl).
Defined.

Lemma main_ignores_default_uri_demo :
  main nat demo_request demo_str (PDict demo_doc) "http://x" 0%nat
  = main nat demo_request demo_str
      (PDict (("Default URI", PInt 5) :: dict_remove "Default URI" demo_doc))
      "http://x" 0%nat.
Proof.
  apply (main_ignores_default_uri nat demo_request demo_str demo_doc
           (("Default URI", PInt 5) :: dict_remove "Default URI" demo_doc)
           "http://x" 0%nat).
  reflexivity.
Defined.

Lemma main_exceptions_demo :
  TypeError <> NoBaseUri
  /\ ((parser_exn TypeError /\ 0%nat = 0%nat /\ @nil event = [])
      \/ loop_exn TypeError).
Proof.
  exact (main_exceptions nat demo_request demo_str (PDict faulty_doc) "http://x"
           0%nat 0%nat TypeError [] eq_refl).
Defined.

Lemma no_groups_no_output_demo :
  main nat demo_request demo_str
    (PDict [("Default URI", PStr "http://x"); ("Name", PStr "S")]) "" 3%nat
  = (Ok tt, 3%nat, []).
Proof.
  exact (no_groups_no_output nat demo_request demo_str
           [("Default URI", PStr "http://x"); ("Name", PStr "S")] "" 3%nat
           eq_refl eq_refl).
Defined.

Lemma mixed_types_demo :
  for_each nat
    [TestCase.mk (PStr "c") (PInt 5) (PStr "GET") (PInt 200) PNone; demo_c1]
    (run_case nat demo_request demo_str (PStr "http://x")) 0%nat
  = (Raise TypeError, 0%nat, [Cprint (TAB ++ "c Testing") grey ""]).
Proof.
  exact (mixed_types_stop_the_run nat demo_request demo_str (PStr "http://x")
           (TestCase.mk (PStr "c") (PInt 5) (PStr "GET") (PInt 200) PNone)
           [demo_c1] 0%nat eq_refl).
Defined.

Lemma ill_typed_expectation_demo :
  fst (fst (conduct nat demo_request
              (TestCase.mk (PStr "c") (PStr "/a") (PStr "GET") (PStr "200") PNone)
              (PStr "http://x") 0%nat))
  <> Ok true.
Proof.
  exact (ill_typed_expectation_never_passes nat demo_request
           (TestCase.mk (PStr "c") (PStr "/a") (PStr "GET") (PStr "200") PNone)
           (PStr "http://x") 0%nat (or_introl eq_refl)).
Defined.

Lemma grouping_does_not_matter_demo :
  fst (conduct_tests nat demo_request demo_str demo_test PNone 0%nat)
  = fst (conduct_tests nat demo_request demo_str demo_regrouped PNone 0%nat)
  /\ filter no_header
       (snd (conduct_tests nat demo_request demo_str demo_test PNone 0%nat))
     = filter no_header
         (snd (conduct_tests nat demo_request demo_str demo_regrouped PNone 0%nat)).
Proof.
  exact (grouping_does_not_matter nat demo_request demo_str demo_test
           demo_regrouped PNone 0%nat eq_refl eq_refl).
Defined.

Lemma network_error_demo :
  exists tr,
    conduct_tests nat demo_request demo_str demo_failing PNone 0%nat
    = (Raise (RequestRaised "ConnectionError"), 2%nat, tr)
    /\ filter is_request tr
       = [Request (PStr "GET") (PStr "http://x/a");
          Request (PStr "GET") (PStr "http://x/down")]
    /\ filter is_verdict tr = [passed_line demo_str demo_c1].
Proof.
  apply (network_error_stops_the_run nat demo_request demo_str demo_failing
           PNone "http://x" "/down" "ConnectionError" [demo_c1] [demo_c2]
           demo_c3 [(PStr "GET", PStr "http://x/a")] [mkResponse 200 "ok"]
           0%nat 1%nat 2%nat);
    try reflexivity.
  repeat constructor. eexists. split; reflexivity.
Defined.

Lemma faulty_doc_wf : dict_wf faulty_doc.
Proof.
  unfold dict_wf, faulty_doc. cbn [map fst].
  repeat constructor; cbn [In]; intuition discriminate.
Qed.

Lemma first_faulty_group_demo :
  parse_tests (PDict faulty_doc) = Raise TypeError.
Proof.
  apply (first_faulty_group_decides faulty_doc
           [("Good", PList [PDict case_c1])] [("Later", PList [PInt 7])]
           "Bad" (PInt 5) TypeError faulty_doc_wf); try reflexivity.
  repeat constructor. eexists. reflexivity.
Defined.

Lemma partial_body_demo :
  conduct nat demo_request demo_c2 (PStr "http://x") 0%nat
  = (Ok false, 1%nat, [Request (PStr "GET") (PStr "http://x/b")]).
Proof.
  apply (partial_body_fails nat demo_request demo_c2 (PStr "http://x")
           (PStr "http://x/b") 0%nat 1%nat (mkResponse 200 "ok ") "ok" " ");
    try reflexivity.
  - discriminate.
  - now left.
Defined.

(** ** Order and failures on the demo documents *)




Lemma order_is_preserved_demo :
  (dict_wf demo_doc /\ parse_tests (PDict demo_doc) = Ok demo_test)
  /\ map TestGroup.name (Test.test_groups demo_test) = ["Group"; "Empty"]
  /\ Forall2 group_of_entry (Test.test_groups demo_test)
       [("Group", PList [PDict case_c1; PDict case_c2]); ("Empty", PList [])]
  /\ (exists tr,
        conduct_tests nat demo_request demo_str demo_test PNone 0%nat
        = (Ok tt, 2%nat, tr)
        /\ filter is_announcement tr
           = [Cprint "Group" blue LF;
              Cprint (TAB ++ "c1 Testing") grey "";
              Cprint (TAB ++ "c2 Testing") grey "";
              Cprint "Empty" blue LF]
        /\ filter is_verdict tr
           = [Cprint (CR ++ TAB ++ "c1 Passed!") green LF;
              Cprint (CR ++ TAB ++ "c2 Failed!") red LF])
  /\ (filter is_announcement
        (snd (conduct_tests nat demo_request demo_str demo_test
                (PStr "http://y") 0%nat))
      = [Cprint "Group" blue LF; Cprint (TAB ++ "c1 Testing") grey ""]
      /\ (0 < 2)%nat).
Proof.
  destruct (order_is_preserved nat demo_request demo_str demo_doc demo_test
              demo_doc_wf eq_refl) as (Hnames & Hcases & _ & Hany & Hanswered).
  split; [split; [exact demo_doc_wf | reflexivity] | ].
  split; [exact Hnames | ]. split; [exact Hcases | ]. split.
  - apply (Hanswered PNone "http://x"
             [(PStr "GET", PStr "http://x/a"); (PStr "GET", PStr "http://x/b")]
             [mkResponse 200 "ok"; mkResponse 200 "ok "] 0%nat 2%nat).
    + reflexivity.
    + repeat constructor; eexists; split; reflexivity.
    + reflexivity.
  - exact (proj2 (Hany (PStr "http://y") (PStr "http://y") 0%nat eq_refl)).
Defined.


